(** * util/classification/models.py: the three model builders

    A shallow embedding of [baseline_nn_model], [resnet] and
    [simple_combine_model].  Every builder is glue code over Keras: it
    reads the attributes stored by [__init__], constructs layers, chains
    them and compiles the result.  The embedding keeps exactly that:

    - a layer is the constructor call that made it, with the arguments
      the source passes ([layer]);
    - a tensor of the functional API is the chain of layers applied to
      the model inputs ([tensor]);
    - [model()] runs in a small monad that threads the instance
      attributes and the log of layers constructed so far, and that can
      raise a Python exception ([M]);
    - Python integers are [Z], Python floats are binary64 values of
      [SpecFloat], list and string subscripts raise [IndexError] out of
      range;
    - what Keras does with a layer is not part of this file: a
      constructor call is recorded and taken to succeed, and the static
      shape Keras infers for a tensor ([X.shape]) is a parameter of
      [resnet.model]. *)

From Stdlib Require Import ZArith List String Ascii Bool Lia Sorted.
From Stdlib Require Import DecimalString DecimalPos DecimalZ.
From Stdlib Require Import SpecFloat.
Import ListNotations.

Local Open Scope string_scope.
Local Open Scope Z_scope.

(** ** Python values *)

(** The exceptions the interpreter itself can raise in this file. *)
Inductive exn : Type :=
| IndexError
| OverflowError
| ValueError
| ZeroDivisionError.

Inductive result (A : Type) : Type :=
| Ok (a : A)
| Raise (e : exn).
Arguments Ok {A} a.
Arguments Raise {A} e.

(** Binary64: 53 bits of precision, exponents below 1024. *)
Definition prec : Z := 53.
Definition emax : Z := 1024.
Definition float : Type := spec_float.

(** A Python number as the constructors receive it: [lr] defaults to the
    float [5e-5], [dropout] to the int [-1]. *)
Inductive pynum : Type :=
| PyInt (z : Z)
| PyFloat (x : float).

(** [x > 0.] for a number [x]: an int is compared exactly, a float by the
    IEEE comparison (false on NaN). *)
Definition gt_zero (x : pynum) : bool :=
  match x with
  | PyInt z => 0 <? z
  | PyFloat f => SFltb (S754_zero false) f
  end.

(** [a / b] on ints (true division): the exact quotient rounded to the
    nearest binary64, ties to even; [ZeroDivisionError] on [b = 0] and
    [OverflowError] when the rounded quotient is not finite.
    [round_quotient] rounds the quotient of two positive magnitudes and
    gives it the sign [sgn]. *)
Definition round_quotient (sgn : bool) (a b : Z) : result float :=
  let '(mz, ez, lz) := SFdiv_core_binary prec emax a 0 b 0 in
  match binary_round_aux prec emax sgn mz ez lz with
  | S754_infinity _ => Raise OverflowError
  | q => Ok q
  end.

Definition truediv (a b : Z) : result float :=
  match a, b with
  | _, Z0 => Raise ZeroDivisionError
  | Z0, _ => Ok (S754_zero (b <? 0))
  | _, _ => round_quotient (xorb (a <? 0) (b <? 0)) (Z.abs a) (Z.abs b)
  end.

(** [int(x)] on a float: truncation toward zero. *)
Definition int_of_float (x : float) : result Z :=
  match x with
  | S754_zero _ => Ok 0
  | S754_finite s m e =>
      let mag := match e with
                 | Zneg k => Z.pos m / 2 ^ Z.pos k
                 | _ => Z.pos m * 2 ^ e
                 end in
      Ok (if s then - mag else mag)
  | S754_infinity _ => Raise OverflowError
  | S754_nan => Raise ValueError
  end.

(** [str(n)] on an int. *)
Definition str (n : Z) : string := NilZero.string_of_int (Z.to_int n).

(** [range(n)]: empty when [n <= 0]. *)
Definition range (n : Z) : list Z := map Z.of_nat (seq 0 (Z.to_nat n)).

(** [len(l)]. *)
Definition len {A : Type} (l : list A) : Z := Z.of_nat (List.length l).

(** [l[i]] on a list: a negative index counts from the end, an index out
    of range raises [IndexError]. *)
Definition getitem {A : Type} (l : list A) (i : Z) : result A :=
  let k := if i <? 0 then i + len l else i in
  if k <? 0 then Raise IndexError
  else match nth_error l (Z.to_nat k) with
       | Some x => Ok x
       | None => Raise IndexError
       end.

(** [s[i]] on a string: the one-character string at [i], with the same
    index rules. *)
Definition str_getitem (s : string) (i : Z) : result string :=
  let k := if i <? 0 then i + Z.of_nat (String.length s) else i in
  if k <? 0 then Raise IndexError
  else match String.get (Z.to_nat k) s with
       | Some c => Ok (String c EmptyString)
       | None => Raise IndexError
       end.

(** [string.ascii_lowercase]. *)
Definition ascii_lowercase : string := "abcdefghijklmnopqrstuvwxyz".

(** ** Keras objects *)

(** The external [tf.distribute] strategy object, known by its identity. *)
Inductive strategy_ref : Type :=
| Strategy (handle : Z).

Inductive initializer : Type :=
| InitNamed (identifier : string)
| glorot_uniform (seed : Z).

(** The classes named in [custom_objects]. *)
Inductive custom_class : Type :=
| ImageScaleBlockClass
| ConvolutionBlockClass
| IdentityBlockClass.

(** A layer is the constructor call that made it.  A keyword the source
    leaves out is [None]. *)
Inductive layer : Type :=
| Input (shape : list (option Z)) (name : string)
| Dense (units : Z) (input_dim : option Z)
        (kernel_initializer : option initializer)
        (activation : string) (name : option string)
| Dropout (rate : pynum)
| ImageScaleBlock (input_shape : Z * Z) (normalization : bool)
                  (name_prefix : string)
| ZeroPadding2D (padding : Z * Z)
| RandomFlip (name : string)
| Conv2D (filters : Z) (kernel_size strides : Z * Z) (name : string)
         (kernel_initializer : initializer)
| BatchNormalization (axis : Z) (name : string)
| Activation (activation : string)
| MaxPooling2D (pool_size strides : Z * Z)
| ConvolutionBlock (f : Z) (filters : list Z) (stage : Z) (block : string)
                   (s : Z) (normalization : bool)
| IdentityBlock (f : Z) (filters : list Z) (stage : Z) (block : string)
                (normalization : bool)
| AveragePooling2D (pool_size : Z * Z) (name : string)
| Flatten.

(** A symbolic tensor: the input layers it starts from and the layers
    applied since, oldest first. *)
Record tensor : Type := Tensor {
  sources : list layer;
  applied : list layer
}.

Inductive optimizer : Type :=
| Adam (lr : pynum).

(** The arguments of [model.compile]. *)
Record compile_args : Type := Compile {
  loss : string;
  optimizer_of : optimizer;
  metrics : list string
}.

(** A Keras model: [Sequential()] grown with [add], or
    [Model(inputs=, outputs=, name=)]; [compiled] is set by [compile];
    [scope] is the strategy whose [scope()] the model was created in. *)
Inductive architecture : Type :=
| Sequential (layers : list layer)
| Model (inputs : list layer) (outputs : tensor) (name : string).

Record keras_model : Type := KerasModel {
  arch : architecture;
  compiled : option compile_args;
  scope : option strategy_ref
}.

(** The layers of a model, in order from the input to the output. *)
Definition layers_of (m : keras_model) : list layer :=
  match arch m with
  | Sequential ls => ls
  | Model _ out _ => applied out
  end.

(** ** The monad of a method body

    A method runs on a [world]: the attributes of [self] and the log of
    the layers constructed so far.  It yields a result or raises; the
    world is kept in both cases. *)
Section MethodMonad.
Context {S : Type}.

Record world : Type := World {
  self : S;
  constructed : list layer
}.

Definition M (A : Type) : Type := world -> world * result A.

Definition ret {A : Type} (a : A) : M A := fun w => (w, Ok a).

Definition raise {A : Type} (e : exn) : M A := fun w => (w, Raise e).

Definition bind {A B : Type} (m : M A) (k : A -> M B) : M B :=
  fun w =>
    match m w with
    | (w', Ok a) => k a w'
    | (w', Raise e) => (w', Raise e)
    end.

(** A pure Python operation that may raise. *)
Definition lift {A : Type} (r : result A) : M A := fun w => (w, r).

(** [self.attr] read. *)
Definition getattr {A : Type} (attr : S -> A) : M A :=
  fun w => (w, Ok (attr (self w))).

(** [self.attr = v]: what [__init__] does, and no [model()]. *)
Definition setattr (update : S -> S) : M unit :=
  fun w => (World (update (self w)) (constructed w), Ok tt).

(** A layer constructor call: the new layer is logged. *)
Definition new (l : layer) : M layer :=
  fun w => (World (self w) (constructed w ++ [l]), Ok l).

(** [for x in xs: acc = body(x, acc)]. *)
Fixpoint for_ {A B : Type} (xs : list B) (body : B -> A -> M A) (acc : A)
  : M A :=
  match xs with
  | [] => ret acc
  | x :: xs' => bind (body x acc) (for_ xs' body)
  end.

(** [[body(x) for x in xs]]. *)
Fixpoint comprehension {A B : Type} (xs : list B) (body : B -> M A)
  : M (list A) :=
  match xs with
  | [] => ret []
  | x :: xs' =>
      bind (body x) (fun a =>
      bind (comprehension xs' body) (fun rest => ret (a :: rest)))
  end.
End MethodMonad.
Arguments world S : clear implicits.
Arguments M S A : clear implicits.

Declare Scope method_scope.
Delimit Scope method_scope with method.
Notation "x <- m ;; k" := (bind m (fun x => k))
  (at level 100, m at next level, right associativity) : method_scope.
Local Open Scope method_scope.

(** [Layer(...)(X)]: construct the layer and apply it to [X]. *)
Definition call {S : Type} (l : layer) (X : tensor) : M S tensor :=
  l' <- new l ;;
  ret (Tensor (sources X) (applied X ++ [l'])).

(** [Layer(...)(inputs)] on a list of input tensors. *)
Definition call_on_inputs {S : Type} (l : layer) (inputs : list layer)
  : M S tensor :=
  l' <- new l ;;
  ret (Tensor inputs [l']).

(** [model.add(Layer(...))]. *)
Definition add {S : Type} (model : keras_model) (l : layer)
  : M S keras_model :=
  l' <- new l ;;
  ret (KerasModel
         (match arch model with
          | Sequential ls => Sequential (ls ++ [l'])
          | a => a
          end)
         (compiled model) (scope model)).

(** [model.compile(loss=, optimizer=, metrics=)]. *)
Definition compile (model : keras_model) (l : string) (o : optimizer)
  (ms : list string) : keras_model :=
  KerasModel (arch model) (Some (Compile l o ms)) (scope model).

(** The literal [5e-5]: the binary64 nearest to 5/100000. *)
Definition lr_default : pynum :=
  Eval vm_compute in
    PyFloat (SFdiv prec emax (binary_normalize prec emax 5 0 false)
                             (binary_normalize prec emax 100000 0 false)).

(** ** class baseline_nn_model *)
Module baseline_nn_model.

Record t : Type := Instance {
  strategy : strategy_ref;
  dropout : pynum;
  number_pixels : Z;
  lr : pynum;
  custom_objects : list (string * custom_class)
}.

(** [__init__(self, strategy, number_pixels, lr=5e-5, dropout=-1)];
    an optional argument left out is [None]. *)
Definition __init__ (strategy : strategy_ref) (number_pixels : Z)
  (lr dropout : option pynum) : t :=
  {| strategy := strategy;
     dropout := match dropout with Some d => d | None => PyInt (-1) end;
     number_pixels := number_pixels;
     lr := match lr with Some x => x | None => lr_default end;
     custom_objects := [] |}.

Definition model : M t keras_model :=
  dropout_ <- getattr dropout ;;
  used_pixels <- getattr number_pixels ;;
  strategy_ <- getattr strategy ;;
  lr_ <- getattr lr ;;
  (* with strategy.scope(): *)
  let model := KerasModel (Sequential []) None (Some strategy_) in
  model <- add model (Dense used_pixels (Some used_pixels)
                        (Some (InitNamed "normal")) "relu" None) ;;
  d <- getattr dropout ;;
  model <- (if gt_zero d then add model (Dropout dropout_) else ret model) ;;
  model <- add model (Dense used_pixels None None "relu" None) ;;
  d <- getattr dropout ;;
  model <- (if gt_zero d then add model (Dropout dropout_) else ret model) ;;
  q <- lift (truediv used_pixels 2) ;;
  half <- lift (int_of_float q) ;;
  model <- add model (Dense half None None "relu" None) ;;
  d <- getattr dropout ;;
  model <- (if gt_zero d then add model (Dropout dropout_) else ret model) ;;
  model <- add model (Dense 2 None (Some (InitNamed "normal")) "softmax"
                        None) ;;
  let optimizer := Adam lr_ in
  let model := compile model "categorical_crossentropy" optimizer ["acc"] in
  ret model.

End baseline_nn_model.

(** ** class simple_combine_model *)
Module simple_combine_model.

Record t : Type := Instance {
  strategy : strategy_ref;
  n_input : Z;
  lr : pynum;
  custom_objects : list (string * custom_class)
}.

(** [__init__(self, strategy, lr=5e-5, n_input=6)]. *)
Definition __init__ (strategy : strategy_ref) (lr : option pynum)
  (n_input : option Z) : t :=
  {| strategy := strategy;
     n_input := match n_input with Some n => n | None => 6 end;
     lr := match lr with Some x => x | None => lr_default end;
     custom_objects := [] |}.

Definition model : M t keras_model :=
  n_input_ <- getattr n_input ;;
  strategy_ <- getattr strategy ;;
  lr_ <- getattr lr ;;
  (* with strategy.scope(): *)
  let model := KerasModel (Sequential []) None (Some strategy_) in
  model <- add model (Dense n_input_ (Some n_input_)
                        (Some (InitNamed "normal")) "relu" None) ;;
  model <- add model (Dense 4 None None "relu" None) ;;
  model <- add model (Dense 2 None (Some (InitNamed "normal")) "softmax"
                        None) ;;
  let optimizer := Adam lr_ in
  let model := compile model "categorical_crossentropy" optimizer ["acc"] in
  ret model.

End simple_combine_model.

(** ** class resnet *)
Module resnet.

Record t : Type := Instance {
  filter_sets : list (list Z);
  f_vals : list Z;
  s_vals : list Z;
  i_vals : list Z;
  channels : Z;
  input_shape : Z * Z;
  augmentation : bool;
  normalization : bool;
  lr : pynum;
  classes : Z;
  custom_objects : list (string * custom_class)
}.

(** [__init__(self, filter_sets, f_vals, s_vals, i_vals, channels=6,
    lr=5e-5, input_shape=(128,16), augmentation=True, normalization=True,
    classes=2)]. *)
Definition __init__ (filter_sets : list (list Z))
  (f_vals s_vals i_vals : list Z) (channels : option Z) (lr : option pynum)
  (input_shape : option (Z * Z)) (augmentation normalization : option bool)
  (classes : option Z) : t :=
  {| filter_sets := filter_sets;
     f_vals := f_vals;
     s_vals := s_vals;
     i_vals := i_vals;
     channels := match channels with Some c => c | None => 6 end;
     input_shape := match input_shape with Some p => p | None => (128, 16) end;
     augmentation := match augmentation with Some b => b | None => true end;
     normalization := match normalization with Some b => b | None => true end;
     lr := match lr with Some x => x | None => lr_default end;
     classes := match classes with Some c => c | None => 2 end;
     custom_objects := [("ImageScaleBlock", ImageScaleBlockClass);
                        ("ConvolutionBlock", ConvolutionBlockClass);
                        ("IdentityBlock", IdentityBlockClass)] |}.

Section Model.

(** [X.shape[k]] as Keras infers it: the static size of axis [k] of the
    tensor, [None] when it is not known. *)
Variable static_dim : tensor -> nat -> option Z.

(** [X.shape[k] == 1]. *)
Definition dim_is_one (X : tensor) (k : nat) : bool :=
  match static_dim X k with
  | Some d => d =? 1
  | None => false
  end.

Definition model : M t keras_model :=
  filter_sets_ <- getattr filter_sets ;;
  f_vals_ <- getattr f_vals ;;
  s_vals_ <- getattr s_vals ;;
  i_vals_ <- getattr i_vals ;;
  channels_ <- getattr channels ;;
  input_shape_ <- getattr input_shape ;;
  augmentation_ <- getattr augmentation ;;
  normalization_ <- getattr normalization ;;
  lr_ <- getattr lr ;;
  classes_ <- getattr classes ;;
  inputs <- comprehension (range channels_)
              (fun i => new (Input [None; None; Some 1] ("input" ++ str i))) ;;
  X <- call_on_inputs (ImageScaleBlock input_shape_ true "scaled_input_")
         inputs ;;
  X <- call (ZeroPadding2D (3, 3)) X ;;
  X <- (if augmentation_ then call (RandomFlip "aug_reflect") X else ret X) ;;
  (* Stage 1 *)
  X <- call (Conv2D 64 (7, 7) (2, 2) "conv1" (glorot_uniform 0)) X ;;
  X <- call (BatchNormalization 3 "bn_conv1") X ;;
  X <- call (Activation "relu") X ;;
  X <- call (MaxPooling2D (3, 3) (2, 2)) X ;;
  let n := len f_vals_ in
  X <- for_ (range n) (fun i X =>
         filters <- lift (getitem filter_sets_ i) ;;
         f <- lift (getitem f_vals_ i) ;;
         s <- lift (getitem s_vals_ i) ;;
         ib <- lift (getitem i_vals_ i) ;;
         let stage := i + 1 in
         X <- call (ConvolutionBlock f filters stage "a" s normalization_) X ;;
         for_ (range ib) (fun j X =>
           block <- lift (str_getitem ascii_lowercase (j + 1)) ;;
           call (IdentityBlock f filters stage block normalization_) X) X) X ;;
  (* AVGPOOL *)
  let pool_size :=
    if dim_is_one X 1 then (1, 2)
    else if dim_is_one X 2 then (2, 1)
    else (2, 2) in
  X <- call (AveragePooling2D pool_size "avg_pool") X ;;
  (* output layer *)
  X <- call Flatten X ;;
  X <- call (Dense classes_ None (Some (glorot_uniform 0)) "softmax"
               (Some ("fc" ++ str classes_))) X ;;
  let model := KerasModel (Model inputs X "ResNet50") None None in
  let optimizer := Adam lr_ in
  let model := compile model "categorical_crossentropy" optimizer ["acc"] in
  ret model.

End Model.

(** The bodies of the two loops of [model], named for the proofs:
    [identity_body] is the body of [for j in range(ib)], [stage_body]
    the body of [for i in range(n)]. *)
Definition identity_body (f : Z) (filters : list Z) (stage : Z)
  (normalization_ : bool) (j : Z) (X : tensor) : M t tensor :=
  block <- lift (str_getitem ascii_lowercase (j + 1)) ;;
  call (IdentityBlock f filters stage block normalization_) X.

Definition stage_body (filter_sets_ : list (list Z))
  (f_vals_ s_vals_ i_vals_ : list Z) (normalization_ : bool) (i : Z)
  (X : tensor) : M t tensor :=
  filters <- lift (getitem filter_sets_ i) ;;
  f <- lift (getitem f_vals_ i) ;;
  s <- lift (getitem s_vals_ i) ;;
  ib <- lift (getitem i_vals_ i) ;;
  let stage := i + 1 in
  X <- call (ConvolutionBlock f filters stage "a" s normalization_) X ;;
  for_ (range ib) (identity_body f filters stage normalization_) X.

End resnet.

(** ** Runs and what they are expected to produce *)

(** The layers a method constructs and its result, from an empty log. *)
Definition built {S A : Type} (m : M S A) (s : S) : list layer :=
  constructed (fst (m (World s []))).

Definition outcome {S A : Type} (m : M S A) (s : S) : result A :=
  snd (m (World s [])).

(** [yields m s ls r]: run on the instance [s], from any log, [m] leaves
    [s] as it is, appends [ls] to the log and ends with [r]. *)
Definition yields {S A : Type} (m : M S A) (s : S) (ls : list layer)
  (r : result A) : Prop :=
  forall log, m (World s log) = (World s (log ++ ls), r).

(** [int(n / 2)]. *)
Definition int_truediv (a b : Z) : result Z :=
  match truediv a b with
  | Ok q => int_of_float q
  | Raise e => Raise e
  end.

(** The arguments every builder passes to [compile]. *)
Definition compiled_with (lr : pynum) : option compile_args :=
  Some (Compile "categorical_crossentropy" (Adam lr) ["acc"]).

(** The [Dropout] layer that follows a hidden layer of the baseline
    network, when there is one. *)
Definition dropout_after (s : baseline_nn_model.t) : list layer :=
  if gt_zero (baseline_nn_model.dropout s)
  then [Dropout (baseline_nn_model.dropout s)]
  else [].

(** The layers of the baseline network up to the second hidden layer and
    its dropout. *)
Definition baseline_lower (s : baseline_nn_model.t) : list layer :=
  let n := baseline_nn_model.number_pixels s in
  [Dense n (Some n) (Some (InitNamed "normal")) "relu" None]
  ++ dropout_after s
  ++ [Dense n None None "relu" None]
  ++ dropout_after s.

(** The rest of the baseline network, given the width of the third
    hidden layer. *)
Definition baseline_upper (s : baseline_nn_model.t) (half : Z) : list layer :=
  [Dense half None None "relu" None]
  ++ dropout_after s
  ++ [Dense 2 None (Some (InitNamed "normal")) "softmax" None].

(** The layers of the score-combination network. *)
Definition combine_layers (s : simple_combine_model.t) : list layer :=
  let n := simple_combine_model.n_input s in
  [Dense n (Some n) (Some (InitNamed "normal")) "relu" None;
   Dense 4 None None "relu" None;
   Dense 2 None (Some (InitNamed "normal")) "softmax" None].

(** The [k]-th letter of the alphabet, as a block name. *)
Definition letter (k : nat) : string :=
  match String.get k ascii_lowercase with
  | Some c => String c EmptyString
  | None => EmptyString
  end.

(** [count] identity blocks, named from ["b"] on. *)
Definition identity_blocks (f : Z) (filters : list Z) (stage : Z)
  (norm : bool) (count : nat) : list layer :=
  map (fun j => IdentityBlock f filters stage (letter (Datatypes.S j)) norm)
      (seq 0 count).

(** The blocks of stage index [i]: one convolution block, then
    [i_vals[i]] identity blocks. *)
Definition stage_blocks (s : resnet.t) (i : nat) : list layer :=
  let f := nth i (resnet.f_vals s) 0 in
  let filters := nth i (resnet.filter_sets s) [] in
  let stage := Z.of_nat i + 1 in
  ConvolutionBlock f filters stage "a" (nth i (resnet.s_vals s) 0)
                   (resnet.normalization s)
  :: identity_blocks f filters stage (resnet.normalization s)
       (Z.to_nat (nth i (resnet.i_vals s) 0)).

Definition stage_stack (s : resnet.t) : list layer :=
  flat_map (stage_blocks s) (seq 0 (List.length (resnet.f_vals s))).

(** One input layer per channel. *)
Definition input_layers (s : resnet.t) : list layer :=
  map (fun i => Input [None; None; Some 1] ("input" ++ str i))
      (range (resnet.channels s)).

(** Rescaling, padding and the optional flip. *)
Definition rescaling (s : resnet.t) : list layer :=
  [ImageScaleBlock (resnet.input_shape s) true "scaled_input_";
   ZeroPadding2D (3, 3)]
  ++ (if resnet.augmentation s then [RandomFlip "aug_reflect"] else []).

(** Stage 1 of the source: the first convolution. *)
Definition stem : list layer :=
  [Conv2D 64 (7, 7) (2, 2) "conv1" (glorot_uniform 0);
   BatchNormalization 3 "bn_conv1";
   Activation "relu";
   MaxPooling2D (3, 3) (2, 2)].

Definition front (s : resnet.t) : list layer := rescaling s ++ stem.

(** Average pooling, flatten and the softmax layer, on the tensor [X]
    that leaves the last stage. *)
Definition head (static_dim : tensor -> nat -> option Z) (s : resnet.t)
  (X : tensor) : list layer :=
  [AveragePooling2D
     (if resnet.dim_is_one static_dim X 1 then (1, 2)
      else if resnet.dim_is_one static_dim X 2 then (2, 1)
      else (2, 2)) "avg_pool";
   Flatten;
   Dense (resnet.classes s) None (Some (glorot_uniform 0)) "softmax"
         (Some ("fc" ++ str (resnet.classes s)))].

(** Stage index [i] can be built: the three other lists reach index [i]
    and the alphabet has a letter for each identity block. *)
Definition stage_ok (s : resnet.t) (i : nat) : bool :=
  (i <? List.length (resnet.filter_sets s))%nat
  && (i <? List.length (resnet.s_vals s))%nat
  && (i <? List.length (resnet.i_vals s))%nat
  && (nth i (resnet.i_vals s) 0 <=? 25).

Definition well_formed (s : resnet.t) : Prop :=
  forallb (stage_ok s) (seq 0 (List.length (resnet.f_vals s))) = true.

(** A block of the stage stack that carries the flag [norm]. *)
Definition is_stage_block (norm : bool) (l : layer) : Prop :=
  match l with
  | ConvolutionBlock _ _ _ _ _ n => n = norm
  | IdentityBlock _ _ _ _ n => n = norm
  | _ => False
  end.

(** The instance [s] with another [normalization] flag. *)
Definition with_normalization (flag : bool) (s : resnet.t) : resnet.t :=
  {| resnet.filter_sets := resnet.filter_sets s;
     resnet.f_vals := resnet.f_vals s;
     resnet.s_vals := resnet.s_vals s;
     resnet.i_vals := resnet.i_vals s;
     resnet.channels := resnet.channels s;
     resnet.input_shape := resnet.input_shape s;
     resnet.augmentation := resnet.augmentation s;
     resnet.normalization := flag;
     resnet.lr := resnet.lr s;
     resnet.classes := resnet.classes s;
     resnet.custom_objects := resnet.custom_objects s |}.

(** The layer [l] with another [normalization] flag, when it is a block
    of the stack; any other layer as it is. *)
Definition set_flag (flag : bool) (l : layer) : layer :=
  match l with
  | ConvolutionBlock f filters stage block sv _ =>
      ConvolutionBlock f filters stage block sv flag
  | IdentityBlock f filters stage block _ =>
      IdentityBlock f filters stage block flag
  | _ => l
  end.

(** The block names of the identity blocks among [ls]. *)
Definition identity_names (ls : list layer) : list string :=
  flat_map (fun l => match l with
                     | IdentityBlock _ _ _ block _ => [block]
                     | _ => []
                     end) ls.

(** The loop over the stages, as [model] runs it. *)
Definition stage_loop (s : resnet.t) : M resnet.t tensor :=
  for_ (range (len (resnet.f_vals s)))
       (resnet.stage_body (resnet.filter_sets s) (resnet.f_vals s)
          (resnet.s_vals s) (resnet.i_vals s) (resnet.normalization s))
       (Tensor (input_layers s) (front s)).

(** The model [resnet.model] returns once the stages gave [X]. *)
Definition resnet_result (static_dim : tensor -> nat -> option Z)
  (s : resnet.t) (X : tensor) : keras_model :=
  KerasModel
    (Model (input_layers s)
           (Tensor (sources X) (applied X ++ head static_dim s X))
           "ResNet50")
    (compiled_with (resnet.lr s)) None.

(** ** Instances used as examples *)

(** The float [0.5]. *)
Definition one_half : float := S754_finite false 4503599627370496 (-53).

Definition a_baseline : baseline_nn_model.t :=
  baseline_nn_model.__init__ (Strategy 0) 512 None (Some (PyFloat one_half)).

Definition a_plain_baseline : baseline_nn_model.t :=
  baseline_nn_model.__init__ (Strategy 0) 512 None None.

Definition a_combiner : simple_combine_model.t :=
  simple_combine_model.__init__ (Strategy 0) None None.

(** Four stages with 2, 3, 5 and 2 identity blocks. *)
Definition a_resnet : resnet.t :=
  resnet.__init__
    [[64; 64; 256]; [128; 128; 512]; [256; 256; 1024]; [512; 512; 2048]]
    [3; 3; 3; 3] [1; 2; 2; 2] [2; 3; 5; 2]
    None None None None None None.

(** The same without augmentation and without normalization. *)
Definition a_bare_resnet : resnet.t :=
  resnet.__init__
    [[64; 64; 256]; [128; 128; 512]; [256; 256; 1024]; [512; 512; 2048]]
    [3; 3; 3; 3] [1; 2; 2; 2] [2; 3; 5; 2]
    None None None (Some false) (Some false) None.

(** Two kernel sizes but one filter set. *)
Definition a_short_resnet : resnet.t :=
  resnet.__init__ [[64; 64; 256]] [3; 3] [1; 2] [2; 3]
    None None None None None None.

(** One stage that asks for 26 identity blocks. *)
Definition a_deep_resnet : resnet.t :=
  resnet.__init__ [[64; 64; 256]] [3] [1] [26]
    None None None None None None.

(** One stage that asks for 25 identity blocks. *)
Definition a_full_resnet : resnet.t :=
  resnet.__init__ [[64; 64; 256]] [3] [1] [25]
    None None None None None None.

(** More filter sets, strides and block counts than kernel sizes. *)
Definition a_long_resnet : resnet.t :=
  resnet.__init__ [[64; 64; 256]; [128; 128; 512]] [3] [1; 2; 2] [2; 30]
    None None None None None None.

(** A shape inference that knows no dimension. *)
Definition unknown_dim : tensor -> nat -> option Z := fun _ _ => None.

(** ** Views of the layers and of the instances *)

(** The name the source gives to a layer, for the layers it names. *)
Definition name_of (l : layer) : option string :=
  match l with
  | Input _ name => Some name
  | Dense _ _ _ _ name => name
  | RandomFlip name => Some name
  | Conv2D _ _ _ name _ => Some name
  | BatchNormalization _ name => Some name
  | AveragePooling2D _ name => Some name
  | _ => None
  end.

Definition names_of (ls : list layer) : list string :=
  flat_map (fun l => match name_of l with Some n => [n] | None => [] end) ls.

(** The stage number and block letter of a block of the stack. *)
Definition block_key (l : layer) : option (Z * string) :=
  match l with
  | ConvolutionBlock _ _ stage block _ _ => Some (stage, block)
  | IdentityBlock _ _ stage block _ => Some (stage, block)
  | _ => None
  end.

Definition block_keys (ls : list layer) : list (Z * string) :=
  flat_map (fun l => match block_key l with Some k => [k] | None => [] end) ls.

Definition is_convolution_block (l : layer) : bool :=
  match l with ConvolutionBlock _ _ _ _ _ _ => true | _ => false end.

Definition is_identity_block (l : layer) : bool :=
  match l with IdentityBlock _ _ _ _ _ => true | _ => false end.

Definition is_dropout (l : layer) : bool :=
  match l with Dropout _ => true | _ => false end.

(** The widths of the [Dense] layers among [ls], in order. *)
Definition dense_units (ls : list layer) : list Z :=
  flat_map (fun l => match l with Dense u _ _ _ _ => [u] | _ => [] end) ls.



(** The input layers of a model: [Sequential] declares none. *)
Definition inputs_of (m : keras_model) : list layer :=
  match arch m with
  | Sequential _ => []
  | Model ins _ _ => ins
  end.

(** The instance [s] with [filter_sets], [s_vals] and [i_vals] cut to the
    length of [f_vals]. *)
Definition truncated (s : resnet.t) : resnet.t :=
  let n := List.length (resnet.f_vals s) in
  {| resnet.filter_sets := firstn n (resnet.filter_sets s);
     resnet.f_vals := resnet.f_vals s;
     resnet.s_vals := firstn n (resnet.s_vals s);
     resnet.i_vals := firstn n (resnet.i_vals s);
     resnet.channels := resnet.channels s;
     resnet.input_shape := resnet.input_shape s;
     resnet.augmentation := resnet.augmentation s;
     resnet.normalization := resnet.normalization s;
     resnet.lr := resnet.lr s;
     resnet.classes := resnet.classes s;
     resnet.custom_objects := resnet.custom_objects s |}.

(** The number of identity blocks stage [i] gets. *)
Definition identity_count (s : resnet.t) (i : nat) : nat :=
  Z.to_nat (nth i (resnet.i_vals s) 0).

(** No kernel size at all, the other lists not empty. *)
Definition a_stageless_resnet : resnet.t :=
  resnet.__init__ [[64; 64; 256]] [] [1; 2] [30]
    None None None None None None.


(** Two good stages, then one that asks for 40 identity blocks. *)
Definition a_late_deep_resnet : resnet.t :=
  resnet.__init__ [[64; 64; 256]; [128; 128; 512]; [256; 256; 1024]]
    [3; 3; 3] [1; 2; 2] [2; 0; 40]
    None None None None None None.


(** A shape inference for which every dimension is 1. *)
Definition unit_dim : tensor -> nat -> option Z := fun _ _ => Some 1.

(** ** The monad *)

Section MonadFacts.
Context {S : Type}.
Implicit Types (s : S) (ls : list layer).

Lemma yields_ret {A : Type} (a : A) s : yields (ret a) s [] (Ok a).
Proof. intros log. unfold ret. now rewrite app_nil_r. Qed.

Lemma yields_lift {A : Type} (r : result A) s : yields (lift r) s [] r.
Proof. intros log. unfold lift. now rewrite app_nil_r. Qed.

Lemma yields_getattr {A : Type} (attr : S -> A) s :
  yields (getattr attr) s [] (Ok (attr s)).
Proof. intros log. unfold getattr. cbn. now rewrite app_nil_r. Qed.

Lemma yields_new (l : layer) s : yields (new l) s [l] (Ok l).
Proof. intros log. reflexivity. Qed.

Lemma yields_bind {A B : Type} (m : M S A) (k : A -> M S B) s ls1 ls2 a r :
  yields m s ls1 (Ok a) -> yields (k a) s ls2 r ->
  yields (bind m k) s (ls1 ++ ls2) r.
Proof.
  intros Hm Hk log. unfold bind. rewrite Hm, Hk. now rewrite app_assoc.
Qed.

Lemma yields_bind_raise {A B : Type} (m : M S A) (k : A -> M S B) s ls e :
  yields m s ls (Raise e) -> yields (bind m k) s ls (Raise e).
Proof. intros Hm log. unfold bind. now rewrite Hm. Qed.

Lemma yields_conv {A : Type} (m : M S A) s ls ls' (r r' : result A) :
  yields m s ls r -> ls = ls' -> r = r' -> yields m s ls' r'.
Proof. now intros H <- <-. Qed.

Lemma yields_call (l : layer) (X : tensor) s :
  yields (call l X) s [l] (Ok (Tensor (sources X) (applied X ++ [l]))).
Proof. intros log. reflexivity. Qed.

Lemma yields_call_on_inputs (l : layer) (inputs : list layer) s :
  yields (call_on_inputs l inputs) s [l] (Ok (Tensor inputs [l])).
Proof. intros log. reflexivity. Qed.

Lemma yields_add (model : keras_model) (l : layer) s ls :
  arch model = Sequential ls ->
  yields (add model l) s [l]
    (Ok (KerasModel (Sequential (ls ++ [l])) (compiled model) (scope model))).
Proof. intros Ha log. unfold add, bind, new, ret. cbn. now rewrite Ha. Qed.

Lemma yields_comprehension_new {B : Type} (g : B -> layer) (xs : list B) s :
  yields (comprehension xs (fun x => new (g x))) s (map g xs) (Ok (map g xs)).
Proof.
  induction xs as [|x xs IH]; cbn [comprehension map].
  - apply yields_ret.
  - eapply yields_conv.
    + eapply yields_bind; [apply yields_new|].
      eapply yields_bind; [apply IH|]. apply yields_ret.
    + cbn. now rewrite app_nil_r.
    + reflexivity.
Qed.

Lemma for_app {A B : Type} (xs ys : list B) (body : B -> A -> M S A) (acc : A)
  (w : world S) :
  for_ (xs ++ ys) body acc w = bind (for_ xs body acc) (for_ ys body) w.
Proof.
  revert acc w. induction xs as [|x xs IH]; intros acc w; cbn [for_ app].
  - reflexivity.
  - unfold bind. destruct (body x acc w) as [w' [a|e]].
    + rewrite IH. reflexivity.
    + reflexivity.
Qed.

Lemma yields_for_app {A B : Type} (xs ys : list B) (body : B -> A -> M S A)
  (acc acc' : A) s ls1 ls2 r :
  yields (for_ xs body acc) s ls1 (Ok acc') ->
  yields (for_ ys body acc') s ls2 r ->
  yields (for_ (xs ++ ys) body acc) s (ls1 ++ ls2) r.
Proof.
  intros H1 H2 log. rewrite for_app.
  exact (yields_bind _ _ _ _ _ _ _ H1 H2 log).
Qed.

Lemma yields_run {A : Type} (m : M S A) s ls r :
  yields m s ls r -> built m s = ls /\ outcome m s = r.
Proof. intros H. unfold built, outcome. now rewrite H. Qed.

Lemma yields_again {A : Type} (m : M S A) s ls r log :
  yields m s ls r ->
  self (fst (m (World s log))) = s /\
  snd (m (fst (m (World s log)))) = snd (m (World s log)).
Proof. intros H. rewrite H. cbn [fst snd self]. rewrite H. now split. Qed.

End MonadFacts.


(** One statement of a method body. *)
Ltac step :=
  first
    [ eapply yields_bind;
      [ first [ apply yields_getattr | apply yields_new | apply yields_call
              | apply yields_call_on_inputs | apply yields_lift
              | apply yields_comprehension_new
              | (apply yields_add; reflexivity) | apply yields_ret ]
      | cbv beta zeta ]
    | apply yields_ret ].

(** ** Floats: [int(n / 2)] is exact below 2^53 *)

Lemma digits2_pos_size (p : positive) : digits2_pos p = Pos.size p.
Proof. induction p; simpl; congruence. Qed.

Lemma digits2_log2 (p : positive) :
  Z.pos (digits2_pos p) = Z.log2 (Z.pos p) + 1.
Proof.
  rewrite digits2_pos_size.
  destruct p; simpl; try reflexivity; rewrite Pos.add_1_r; reflexivity.
Qed.

(** Rounding an even mantissa of 54 digits drops its last digit and
    nothing else. *)
Lemma round_even_54 (sgn : bool) (r : positive) (e : Z) :
  digits2_pos r = 53%positive -> -1074 <= e <= 971 ->
  binary_round_aux prec emax sgn (Z.pos r~0) (e - 1) loc_Exact
  = S754_finite sgn r e.
Proof.
  intros Hd He.
  unfold binary_round_aux, shr_fexp.
  assert (H1 : fexp prec emax (Zdigits2 (Z.pos r~0) + (e - 1)) - (e - 1) = 1).
  { unfold fexp, emin, prec, emax. simpl Zdigits2. rewrite Hd. lia. }
  rewrite H1.
  cbn [shr_record_of_loc shr iter_pos shr_1 orb shr_m loc_of_shr_record
       round_nearest_even].
  replace (e - 1 + 1) with e by lia.
  assert (H2 : fexp prec emax (Zdigits2 (Z.pos r) + e) - e = 0).
  { unfold fexp, emin, prec, emax. simpl Zdigits2. rewrite Hd. lia. }
  rewrite H2. cbn [shr shr_m].
  replace (e <=? emax - prec) with true; [reflexivity|].
  symmetry. apply Z.leb_le. unfold emax, prec. lia.
Qed.

(** The division core on [p / 2]: the quotient is [p] shifted to 54
    digits, with no remainder. *)
Lemma div2_core (p : positive) :
  Z.pos p < 2 ^ 53 ->
  exists r : positive,
    Z.pos r = Z.pos p * 2 ^ (53 - Z.pos (digits2_pos p)) /\
    digits2_pos r = 53%positive /\
    SFdiv_core_binary prec emax (Z.pos p) 0 2 0
    = (Z.pos r~0, Z.pos (digits2_pos p) - 55, loc_Exact).
Proof.
  intros Hp.
  pose proof (digits2_log2 p) as Hd.
  assert (Hlog : Z.log2 (Z.pos p) < 53) by (apply Z.log2_lt_pow2; lia).
  pose proof (Z.log2_nonneg (Z.pos p)) as Hlog0.
  set (d := Z.pos (digits2_pos p)) in *.
  assert (Hpow : 0 < 2 ^ (53 - d)) by (apply Z.pow_pos_nonneg; lia).
  assert (Hr : exists r, Z.pos r = Z.pos p * 2 ^ (53 - d)).
  { exists (Z.to_pos (Z.pos p * 2 ^ (53 - d))). rewrite Z2Pos.id; lia. }
  destruct Hr as [r Hr].
  exists r. split; [exact Hr|]. split.
  - assert (Z.pos (digits2_pos r) = 53); [|congruence].
    rewrite digits2_log2, Hr. rewrite Z.log2_mul_pow2 by lia. lia.
  - unfold SFdiv_core_binary.
    change (Zdigits2 (Z.pos p)) with d. change (Zdigits2 2) with 2.
    assert (He : Z.min (fexp prec emax (d + 0 - (2 + 0))) (0 - 0) = d - 55).
    { unfold fexp, emin, prec, emax. lia. }
    rewrite He.
    destruct (0 - 0 - (d - 55)) as [|k|k] eqn:Hk; try lia.
    rewrite Z.shiftl_mul_pow2 by lia.
    assert (Hm : Z.pos p * 2 ^ Z.pos k = Z.pos r~0 * 2).
    { replace (Z.pos k) with (53 - d + 1 + 1) by lia.
      rewrite !Z.pow_add_r by lia. change (2 ^ 1) with 2.
      rewrite !Z.mul_assoc, <- Hr. lia. }
    rewrite Hm.
    pose proof (Z.div_eucl_eq (Z.pos r~0 * 2) 2 ltac:(lia)) as Hdiv.
    pose proof (Z.mod_pos_bound (Z.pos r~0 * 2) 2 ltac:(lia)) as Hmod.
    unfold Z.modulo in Hmod.
    destruct (Z.div_eucl (Z.pos r~0 * 2) 2) as [q m].
    assert (m = 0) by lia. assert (q = Z.pos r~0) by lia. subst. reflexivity.
Qed.

Lemma round_quotient_2 (sgn : bool) (p : positive) :
  Z.pos p < 2 ^ 53 ->
  exists q, round_quotient sgn (Z.pos p) 2 = Ok q /\
            int_of_float q = Ok (if sgn then - (Z.pos p / 2) else Z.pos p / 2).
Proof.
  intros Hp. destruct (div2_core p Hp) as (r & Hr & Hd & Hcore).
  unfold round_quotient. rewrite Hcore.
  pose proof (digits2_log2 p) as Hdp.
  assert (Hlog : Z.log2 (Z.pos p) < 53) by (apply Z.log2_lt_pow2; lia).
  pose proof (Z.log2_nonneg (Z.pos p)) as Hlog0.
  set (d := Z.pos (digits2_pos p)) in *.
  replace (d - 55) with (d - 54 - 1) by lia.
  rewrite round_even_54 by (auto; lia).
  eexists. split; [reflexivity|].
  unfold int_of_float.
  destruct (d - 54) as [|k|k] eqn:Hk; try lia.
  assert (Hq : Z.pos r / 2 ^ Z.pos k = Z.pos p / 2).
  { rewrite Hr. replace (Z.pos k) with (53 - d + 1) by lia.
    rewrite Z.pow_add_r by lia. change (2 ^ 1) with 2.
    rewrite (Z.mul_comm (2 ^ (53 - d)) 2).
    apply Z.div_mul_cancel_r; [lia|].
    apply Z.pow_nonzero; lia. }
  rewrite Hq. reflexivity.
Qed.

(** Below 2^53 in magnitude, [int(n / 2)] is the quotient truncated
    toward zero. *)
Lemma int_truediv_2 (n : Z) :
  - 2 ^ 53 < n < 2 ^ 53 -> int_truediv n 2 = Ok (Z.quot n 2).
Proof.
  intros Hn. unfold int_truediv. destruct n as [|p|p].
  - reflexivity.
  - destruct (round_quotient_2 false p) as (q & Hq & Hi); [lia|].
    cbn [truediv Z.abs Z.ltb Z.compare xorb]. rewrite Hq, Hi.
    rewrite Z.quot_div_nonneg by lia. reflexivity.
  - destruct (round_quotient_2 true p) as (q & Hq & Hi); [lia|].
    cbn [truediv Z.abs Z.ltb Z.compare xorb]. rewrite Hq, Hi.
    f_equal. change (Z.neg p) with (- Z.pos p).
    rewrite Z.quot_opp_l by lia. rewrite Z.quot_div_nonneg by lia. reflexivity.
Qed.

Lemma int_truediv_2_floor (n : Z) :
  0 <= n < 2 ^ 53 -> int_truediv n 2 = Ok (n / 2).
Proof.
  intros Hn. rewrite int_truediv_2 by lia.
  rewrite Z.quot_div_nonneg by lia. reflexivity.
Qed.

(** ** baseline_nn_model.model and simple_combine_model.model *)

Lemma combine_model_yields (s : simple_combine_model.t) :
  yields simple_combine_model.model s (combine_layers s)
    (Ok (KerasModel (Sequential (combine_layers s))
           (compiled_with (simple_combine_model.lr s))
           (Some (simple_combine_model.strategy s)))).
Proof.
  unfold simple_combine_model.model.
  eapply yields_conv; [repeat step | reflexivity | reflexivity].
Qed.

Lemma baseline_model_yields (s : baseline_nn_model.t) :
  yields baseline_nn_model.model s
    (baseline_lower s
     ++ match int_truediv (baseline_nn_model.number_pixels s) 2 with
        | Ok half => baseline_upper s half
        | Raise _ => []
        end)
    (match int_truediv (baseline_nn_model.number_pixels s) 2 with
     | Ok half =>
         Ok (KerasModel
               (Sequential (baseline_lower s ++ baseline_upper s half))
               (compiled_with (baseline_nn_model.lr s))
               (Some (baseline_nn_model.strategy s)))
     | Raise e => Raise e
     end).
Proof.
  unfold baseline_nn_model.model, int_truediv, baseline_lower, baseline_upper,
    dropout_after.
  destruct (gt_zero (baseline_nn_model.dropout s)) eqn:Hd;
    (destruct (truediv (baseline_nn_model.number_pixels s) 2) as [q|e] eqn:Hq;
     [destruct (int_of_float q) as [half|e] eqn:Hi|]);
    (eapply yields_conv;
     [ repeat first [ step | rewrite Hd | rewrite Hq | rewrite Hi
                    | (apply yields_bind_raise; apply yields_lift) ]
     | reflexivity | reflexivity ]).
Qed.

(** ** Subscripts *)

Lemma getitem_nat {A : Type} (l : list A) (i : nat) (d : A) :
  (i < List.length l)%nat -> getitem l (Z.of_nat i) = Ok (nth i l d).
Proof.
  intros Hi. unfold getitem.
  destruct (Z.of_nat i <? 0) eqn:Hneg; [apply Z.ltb_lt in Hneg; lia|].
  rewrite Hneg, Nat2Z.id.
  destruct (nth_error l i) as [x|] eqn:Hx.
  - now rewrite (nth_error_nth _ _ d Hx).
  - apply nth_error_None in Hx. lia.
Qed.

Lemma getitem_past_end {A : Type} (l : list A) (i : nat) :
  (List.length l <= i)%nat -> getitem l (Z.of_nat i) = Raise IndexError.
Proof.
  intros Hi. unfold getitem.
  destruct (Z.of_nat i <? 0) eqn:Hneg; [apply Z.ltb_lt in Hneg; lia|].
  rewrite Hneg, Nat2Z.id.
  apply nth_error_None in Hi. now rewrite Hi.
Qed.

Lemma range_len {A : Type} (l : list A) :
  range (len l) = map Z.of_nat (seq 0 (List.length l)).
Proof. unfold range, len. now rewrite Nat2Z.id. Qed.

(** The alphabet names blocks 1 to 25 and has nothing at index 26. *)
Lemma block_letter (k : nat) :
  (k < 25)%nat ->
  str_getitem ascii_lowercase (Z.of_nat k + 1) = Ok (letter (Datatypes.S k)).
Proof.
  intros Hk.
  do 25 (destruct k as [|k]; [reflexivity|]). lia.
Qed.

Lemma no_letter_26 :
  str_getitem ascii_lowercase (Z.of_nat 25 + 1) = Raise IndexError.
Proof. reflexivity. Qed.

(** ** The loops of resnet.model *)

Section StageLoops.
Variable s : resnet.t.

Lemma identity_loop_ok (f : Z) (filters : list Z) (stage : Z) (norm : bool)
  (m k : nat) (X : tensor) :
  (k + m <= 25)%nat ->
  let blocks :=
    map (fun j => IdentityBlock f filters stage (letter (Datatypes.S j)) norm)
        (seq k m) in
  yields (for_ (map Z.of_nat (seq k m))
               (resnet.identity_body f filters stage norm) X)
         s blocks (Ok (Tensor (sources X) (applied X ++ blocks))).
Proof.
  revert k X. induction m as [|m IH]; intros k X Hk; cbn [seq map for_].
  - eapply yields_conv; [apply yields_ret | reflexivity |].
    destruct X; cbn. now rewrite app_nil_r.
  - eapply yields_conv.
    + eapply yields_bind.
      * unfold resnet.identity_body. rewrite block_letter by lia.
        step. apply yields_call.
      * apply IH. lia.
    + reflexivity.
    + cbn [sources applied app]. now rewrite <- app_assoc.
Qed.

Lemma identity_loop_raise (f : Z) (filters : list Z) (stage : Z) (norm : bool)
  (ib : Z) (X : tensor) :
  25 < ib ->
  yields (for_ (range ib) (resnet.identity_body f filters stage norm) X)
         s (identity_blocks f filters stage norm 25) (Raise IndexError).
Proof.
  intros Hib. unfold range.
  replace (Z.to_nat ib) with (25 + Datatypes.S (Z.to_nat ib - 26))%nat by lia.
  rewrite seq_app, map_app.
  eapply yields_conv.
  - eapply yields_for_app.
    + apply (identity_loop_ok f filters stage norm 25 0 X). lia.
    + cbn [seq map for_ Nat.add]. apply yields_bind_raise.
      unfold resnet.identity_body. rewrite no_letter_26.
      apply yields_bind_raise. apply yields_lift.
  - unfold identity_blocks. now rewrite app_nil_r.
  - reflexivity.
Qed.

Lemma identity_blocks_are_blocks (f : Z) (filters : list Z) (stage : Z)
  (norm : bool) (count : nat) :
  Forall (is_stage_block norm) (identity_blocks f filters stage norm count).
Proof.
  unfold identity_blocks. apply Forall_forall. intros l Hl.
  apply in_map_iff in Hl. destruct Hl as (j & <- & _). reflexivity.
Qed.

Lemma stage_blocks_are_blocks (i : nat) :
  Forall (is_stage_block (resnet.normalization s)) (stage_blocks s i).
Proof.
  unfold stage_blocks. constructor; [reflexivity|].
  apply identity_blocks_are_blocks.
Qed.

(** One turn of the stage loop: it builds the blocks of the stage when
    [stage_ok] holds, and raises [IndexError] otherwise. *)
Lemma stage_body_yields (i : nat) (X : tensor) :
  (i < List.length (resnet.f_vals s))%nat ->
  exists ls r,
    yields (resnet.stage_body (resnet.filter_sets s) (resnet.f_vals s)
              (resnet.s_vals s) (resnet.i_vals s) (resnet.normalization s)
              (Z.of_nat i) X) s ls r
    /\ Forall (is_stage_block (resnet.normalization s)) ls
    /\ (if stage_ok s i
        then ls = stage_blocks s i
             /\ r = Ok (Tensor (sources X) (applied X ++ ls))
        else r = Raise IndexError).
Proof.
  intros Hf. unfold stage_ok, resnet.stage_body.
  destruct (Nat.ltb_spec i (List.length (resnet.filter_sets s))) as [H1|H1];
    cbn [andb].
  2:{ exists [], (Raise IndexError). repeat split; [|constructor].
      rewrite getitem_past_end by lia.
      apply yields_bind_raise, yields_lift. }
  rewrite (getitem_nat _ _ [] H1), (getitem_nat _ _ 0 Hf).
  destruct (Nat.ltb_spec i (List.length (resnet.s_vals s))) as [H2|H2];
    cbn [andb].
  2:{ exists [], (Raise IndexError). repeat split; [|constructor].
      rewrite getitem_past_end by lia.
      eapply yields_conv; [do 2 step; apply yields_bind_raise, yields_lift
                          | reflexivity | reflexivity]. }
  rewrite (getitem_nat _ _ 0 H2).
  destruct (Nat.ltb_spec i (List.length (resnet.i_vals s))) as [H3|H3];
    cbn [andb].
  2:{ exists [], (Raise IndexError). repeat split; [|constructor].
      rewrite getitem_past_end by lia.
      eapply yields_conv; [do 3 step; apply yields_bind_raise, yields_lift
                          | reflexivity | reflexivity]. }
  rewrite (getitem_nat _ _ 0 H3).
  destruct (Z.leb_spec (nth i (resnet.i_vals s) 0) 25) as [H4|H4].
  - exists (stage_blocks s i),
      (Ok (Tensor (sources X) (applied X ++ stage_blocks s i)%list)).
    split; [|split; [apply stage_blocks_are_blocks | now split]].
    eapply yields_conv.
    + do 5 step. unfold range.
      apply (identity_loop_ok _ _ _ _ (Z.to_nat (nth i (resnet.i_vals s) 0)) 0).
      lia.
    + reflexivity.
    + cbn [sources applied app]. unfold stage_blocks, identity_blocks.
      now rewrite <- app_assoc.
  - eexists _, (Raise IndexError). split; [|split; [|reflexivity]].
    + eapply yields_conv.
      * do 5 step. apply identity_loop_raise. exact H4.
      * reflexivity.
      * reflexivity.
    + cbn [app]. constructor; [reflexivity|].
      apply identity_blocks_are_blocks.
Qed.

Lemma stage_for_yields (m k : nat) (X : tensor) :
  (k + m <= List.length (resnet.f_vals s))%nat ->
  exists ls r,
    yields (for_ (map Z.of_nat (seq k m))
              (resnet.stage_body (resnet.filter_sets s) (resnet.f_vals s)
                 (resnet.s_vals s) (resnet.i_vals s) (resnet.normalization s))
              X) s ls r
    /\ Forall (is_stage_block (resnet.normalization s)) ls
    /\ (if forallb (stage_ok s) (seq k m)
        then ls = flat_map (stage_blocks s) (seq k m)
             /\ r = Ok (Tensor (sources X) (applied X ++ ls))
        else r = Raise IndexError).
Proof.
  revert k X. induction m as [|m IH]; intros k X Hk;
    cbn [seq map for_ forallb flat_map].
  - exists [], (Ok X). split; [apply yields_ret|]. split; [constructor|].
    split; [reflexivity|]. destruct X; cbn. now rewrite app_nil_r.
  - destruct (stage_body_yields k X) as (ls1 & r1 & Hy1 & Hb1 & Hr1); [lia|].
    destruct (stage_ok s k); cbn [andb].
    + destruct Hr1 as [-> ->].
      destruct (IH (Datatypes.S k)
                  (Tensor (sources X) (applied X ++ stage_blocks s k)))
        as (ls2 & r2 & Hy2 & Hb2 & Hr2); [lia|].
      exists (stage_blocks s k ++ ls2)%list, r2.
      split; [eapply yields_bind; eassumption|].
      split; [apply Forall_app; now split|].
      destruct (forallb (stage_ok s) (seq (Datatypes.S k) m)); [|exact Hr2].
      destruct Hr2 as [-> ->]. split; [reflexivity|].
      cbn [sources applied]. now rewrite <- app_assoc.
    + subst r1. exists ls1, (Raise IndexError).
      split; [now apply yields_bind_raise|]. now split.
Qed.

(** The stage loop of [model]: every layer it constructs is a block of
    the stack; it ends with the whole stack when every stage is well
    formed and with [IndexError] otherwise. *)
Lemma stage_loop_yields :
  exists ls r,
    yields (stage_loop s) s ls r
    /\ Forall (is_stage_block (resnet.normalization s)) ls
    /\ (if forallb (stage_ok s) (seq 0 (List.length (resnet.f_vals s)))
        then ls = stage_stack s
             /\ r = Ok (Tensor (input_layers s) (front s ++ stage_stack s))
        else r = Raise IndexError).
Proof.
  unfold stage_loop. rewrite range_len.
  destruct (stage_for_yields (List.length (resnet.f_vals s)) 0
              (Tensor (input_layers s) (front s)))
    as (ls & r & Hy & Hb & Hr); [lia|].
  exists ls, r. split; [exact Hy|]. split; [exact Hb|].
  destruct (forallb (stage_ok s) (seq 0 (List.length (resnet.f_vals s))));
    [|exact Hr].
  destruct Hr as [-> ->]. now split.
Qed.

End StageLoops.

(** ** resnet.model *)

(** [model] around its stage loop: inputs, rescaling and stem first; the
    head, [Model] and [compile] only when the loop gave a tensor; the
    exception of the loop otherwise. *)
Lemma resnet_model_yields (sd : tensor -> nat -> option Z) (s : resnet.t)
  (ls : list layer) (r : result tensor) :
  yields (stage_loop s) s ls r ->
  yields (resnet.model sd) s
    (input_layers s ++ front s ++ ls
     ++ match r with Ok X => head sd s X | Raise _ => [] end)
    (match r with
     | Ok X => Ok (resnet_result sd s X)
     | Raise e => Raise e
     end).
Proof.
  unfold stage_loop, front, rescaling, stem, resnet.model. intros Hloop.
  revert Hloop.
  destruct (resnet.augmentation s) eqn:Haug; intros Hloop;
    destruct r as [X|e];
    (eapply yields_conv;
     [ repeat first [ step | rewrite Haug
                    | (eapply yields_bind; [exact Hloop | cbv beta zeta])
                    | (apply yields_bind_raise; exact Hloop) ]
     | cbn [app]; rewrite ?app_nil_r, <- ?app_assoc; reflexivity
     | unfold resnet_result, compile, head, input_layers;
       cbn [sources applied arch compiled scope];
       rewrite <- ?app_assoc; reflexivity ]).
Qed.

(** Every run of [resnet.model], whatever the instance. *)
Lemma resnet_model_runs (sd : tensor -> nat -> option Z) (s : resnet.t) :
  exists blocks r,
    yields (resnet.model sd) s
      (input_layers s ++ front s ++ blocks
       ++ match r with Ok X => head sd s X | Raise _ => [] end)
      (match r with
       | Ok X => Ok (resnet_result sd s X)
       | Raise e => Raise e
       end)
    /\ Forall (is_stage_block (resnet.normalization s)) blocks
    /\ (if forallb (stage_ok s) (seq 0 (List.length (resnet.f_vals s)))
        then blocks = stage_stack s
             /\ r = Ok (Tensor (input_layers s) (front s ++ stage_stack s))
        else r = Raise IndexError).
Proof.
  destruct (stage_loop_yields s) as (blocks & r & Hy & Hb & Hr).
  exists blocks, r. split; [now apply resnet_model_yields|]. now split.
Qed.

Lemma resnet_model_ok (sd : tensor -> nat -> option Z) (s : resnet.t) :
  well_formed s ->
  let X := Tensor (input_layers s) (front s ++ stage_stack s) in
  yields (resnet.model sd) s
    (input_layers s ++ front s ++ stage_stack s ++ head sd s X)
    (Ok (resnet_result sd s X)).
Proof.
  intros Hwf X.
  destruct (resnet_model_runs sd s) as (blocks & r & Hy & _ & Hr).
  unfold well_formed in Hwf. rewrite Hwf in Hr. destruct Hr as [-> ->].
  exact Hy.
Qed.

Lemma resnet_model_raises (sd : tensor -> nat -> option Z) (s : resnet.t) :
  forallb (stage_ok s) (seq 0 (List.length (resnet.f_vals s))) = false ->
  exists blocks,
    yields (resnet.model sd) s (input_layers s ++ front s ++ blocks)
      (Raise IndexError)
    /\ Forall (is_stage_block (resnet.normalization s)) blocks.
Proof.
  intros Hbad.
  destruct (resnet_model_runs sd s) as (blocks & r & Hy & Hb & Hr).
  rewrite Hbad in Hr. subst r. exists blocks. split; [|exact Hb].
  now rewrite app_nil_r in Hy.
Qed.

Lemma bad_stage (s : resnet.t) (i : nat) :
  (i < List.length (resnet.f_vals s))%nat -> stage_ok s i = false ->
  forallb (stage_ok s) (seq 0 (List.length (resnet.f_vals s))) = false.
Proof.
  intros Hi Hbad.
  destruct (forallb (stage_ok s) (seq 0 (List.length (resnet.f_vals s))))
    eqn:Hall; [|reflexivity].
  rewrite forallb_forall in Hall.
  rewrite (Hall i) in Hbad; [discriminate|].
  apply in_seq. lia.
Qed.

(** [well_formed] spelled out. *)
Lemma well_formed_spec (s : resnet.t) :
  well_formed s <->
  forall i, (i < List.length (resnet.f_vals s))%nat ->
    (i < List.length (resnet.filter_sets s))%nat
    /\ (i < List.length (resnet.s_vals s))%nat
    /\ (i < List.length (resnet.i_vals s))%nat
    /\ nth i (resnet.i_vals s) 0 <= 25.
Proof.
  unfold well_formed. rewrite forallb_forall. split.
  - intros H i Hi. specialize (H i ltac:(apply in_seq; lia)).
    unfold stage_ok in H. rewrite !andb_true_iff in H.
    destruct H as [[[H1 H2] H3] H4].
    apply Nat.ltb_lt in H1, H2, H3. apply Z.leb_le in H4. auto.
  - intros H i Hi. apply in_seq in Hi.
    destruct (H i ltac:(lia)) as (H1 & H2 & H3 & H4).
    unfold stage_ok. rewrite !andb_true_iff.
    repeat split; try (apply Nat.ltb_lt; assumption). now apply Z.leb_le.
Qed.

(** [resnet.model] returns only on well-formed instances, and then the
    model over the whole stack. *)
Lemma resnet_returns (sd : tensor -> nat -> option Z) (s : resnet.t)
  (m : keras_model) :
  outcome (resnet.model sd) s = Ok m ->
  well_formed s
  /\ m = resnet_result sd s
           (Tensor (input_layers s) (front s ++ stage_stack s)).
Proof.
  destruct (resnet_model_runs sd s) as (blocks & r & Hy & _ & Hr).
  destruct (yields_run _ _ _ _ Hy) as [_ Hout]. rewrite Hout.
  unfold well_formed.
  destruct (forallb (stage_ok s) (seq 0 (List.length (resnet.f_vals s)))).
  - destruct Hr as [_ ->]. now intros [= <-].
  - subst r. discriminate.
Qed.

(** ** Properties of the builders *)

(** C1.  On every instance whose lists reach the length of [f_vals] and
    whose stages ask for at most 25 identity blocks, [resnet.model()]
    returns a model whose layers are, in order: the rescaling of the
    inputs with its padding and the optional flip, the first
    convolution, then for each index [i] from 0 to [len(f_vals) - 1] one
    [ConvolutionBlock] with [f = f_vals[i]], [filters = filter_sets[i]],
    [s = s_vals[i]] followed by [i_vals[i]] [IdentityBlock]s (none when
    [i_vals[i]] is negative), and only then average pooling, flatten and
    the softmax layer.  These are all the instances on which [model()]
    returns. *)
Theorem resnet_builds_stage_stack (sd : tensor -> nat -> option Z)
  (s : resnet.t) :
  (well_formed s ->
   exists m X,
     outcome (resnet.model sd) s = Ok m
     /\ layers_of m
        = (rescaling s ++ stem
           ++ flat_map (stage_blocks s) (seq 0 (List.length (resnet.f_vals s)))
           ++ head sd s X)%list
     /\ forall i, (i < List.length (resnet.f_vals s))%nat ->
          exists f filters sv ib ids,
            getitem (resnet.f_vals s) (Z.of_nat i) = Ok f
            /\ getitem (resnet.filter_sets s) (Z.of_nat i) = Ok filters
            /\ getitem (resnet.s_vals s) (Z.of_nat i) = Ok sv
            /\ getitem (resnet.i_vals s) (Z.of_nat i) = Ok ib
            /\ stage_blocks s i
               = ConvolutionBlock f filters (Z.of_nat i + 1) "a" sv
                   (resnet.normalization s) :: ids
            /\ Z.of_nat (List.length ids) = Z.max 0 ib
            /\ Forall (fun l => exists block,
                         l = IdentityBlock f filters (Z.of_nat i + 1) block
                               (resnet.normalization s)) ids)
  /\ (forall m, outcome (resnet.model sd) s = Ok m -> well_formed s).
Proof.
  split; [|intros m Hm; apply (resnet_returns sd s m Hm)].
  intros Hwf.
  destruct (yields_run _ _ _ _ (resnet_model_ok sd s Hwf)) as [_ Hout].
  eexists _, _. split; [exact Hout|]. split.
  - unfold layers_of, resnet_result, front, stage_stack.
    cbn [arch applied]. now rewrite <- !app_assoc.
  - intros i Hi.
    destruct (proj1 (well_formed_spec s) Hwf i Hi) as (H1 & H2 & H3 & _).
    exists (nth i (resnet.f_vals s) 0), (nth i (resnet.filter_sets s) []),
      (nth i (resnet.s_vals s) 0), (nth i (resnet.i_vals s) 0).
    eexists. repeat split; try (apply getitem_nat; assumption).
    + unfold identity_blocks. rewrite length_map, length_seq. lia.
    + apply Forall_forall. intros l Hl. apply in_map_iff in Hl.
      destruct Hl as (j & <- & _). eexists. reflexivity.
Qed.

Lemma resnet_builds_stage_stack_witness :
  well_formed a_resnet
  /\ exists m X,
       outcome (resnet.model unknown_dim) a_resnet = Ok m
       /\ layers_of m
          = (rescaling a_resnet ++ stem
             ++ flat_map (stage_blocks a_resnet) (seq 0 4)
             ++ head unknown_dim a_resnet X)%list.
Proof.
  split; [reflexivity|].
  destruct (proj1 (resnet_builds_stage_stack unknown_dim a_resnet))
    as (m & X & H1 & H2 & _); [reflexivity|].
  exists m, X. split; [exact H1 | exact H2].
Defined.

(** C10.  A stage that asks for more than 25 identity blocks runs out of
    letters: [ascii_lowercase[j + 1]] has no index 26, and [model()]
    raises [IndexError] instead of returning a model. *)
Theorem more_than_25_identity_blocks_raise (sd : tensor -> nat -> option Z)
  (s : resnet.t) (i : nat) (ib : Z) :
  (i < List.length (resnet.f_vals s))%nat ->
  nth_error (resnet.i_vals s) i = Some ib ->
  25 < ib ->
  outcome (resnet.model sd) s = Raise IndexError.
Proof.
  intros Hi Hib Hbig.
  assert (Hbad : stage_ok s i = false).
  { unfold stage_ok. rewrite (nth_error_nth _ _ 0 Hib).
    replace (ib <=? 25) with false by (symmetry; apply Z.leb_gt; lia).
    now rewrite andb_false_r. }
  destruct (resnet_model_raises sd s (bad_stage s i Hi Hbad))
    as (blocks & Hy & _).
  apply (yields_run _ _ _ _ Hy).
Qed.

Lemma more_than_25_identity_blocks_raise_witness :
  (0 < List.length (resnet.f_vals a_deep_resnet))%nat
  /\ nth_error (resnet.i_vals a_deep_resnet) 0 = Some 26
  /\ 25 < 26
  /\ outcome (resnet.model unknown_dim) a_deep_resnet = Raise IndexError.
Proof.
  split; [simpl; lia|]. split; [reflexivity|]. split; [lia|].
  apply (more_than_25_identity_blocks_raise unknown_dim a_deep_resnet 0 26);
    [simpl; lia | reflexivity | lia].
Defined.

(** Twenty-five identity blocks fit: they are named ["b"] to ["z"]. *)
Lemma twenty_five_identity_blocks_fit :
  exists m,
    outcome (resnet.model unknown_dim) a_full_resnet = Ok m
    /\ identity_names (layers_of m)
       = ["b"; "c"; "d"; "e"; "f"; "g"; "h"; "i"; "j"; "k"; "l"; "m"; "n";
          "o"; "p"; "q"; "r"; "s"; "t"; "u"; "v"; "w"; "x"; "y"; "z"].
Proof.
  destruct (yields_run _ _ _ _
              (resnet_model_ok unknown_dim a_full_resnet eq_refl))
    as [_ Hout].
  eexists. split; [exact Hout | reflexivity].
Qed.

(** A stage whose entry is missing in one of the lists raises at the
    subscript, before any block of the stage is constructed. *)
Lemma stage_body_missing (s : resnet.t) (i : nat) (X : tensor) :
  (i < List.length (resnet.f_vals s))%nat ->
  (List.length (resnet.filter_sets s) <= i
   \/ List.length (resnet.s_vals s) <= i
   \/ List.length (resnet.i_vals s) <= i)%nat ->
  yields (resnet.stage_body (resnet.filter_sets s) (resnet.f_vals s)
            (resnet.s_vals s) (resnet.i_vals s) (resnet.normalization s)
            (Z.of_nat i) X) s [] (Raise IndexError).
Proof.
  intros Hf Hshort. unfold resnet.stage_body.
  destruct (Nat.lt_ge_cases i (List.length (resnet.filter_sets s))) as [H1|H1].
  2:{ rewrite getitem_past_end by lia. apply yields_bind_raise, yields_lift. }
  rewrite (getitem_nat _ _ [] H1), (getitem_nat _ _ 0 Hf).
  destruct (Nat.lt_ge_cases i (List.length (resnet.s_vals s))) as [H2|H2].
  2:{ rewrite getitem_past_end by lia.
      eapply yields_conv; [do 2 step; apply yields_bind_raise, yields_lift
                          | reflexivity | reflexivity]. }
  rewrite (getitem_nat _ _ 0 H2).
  rewrite getitem_past_end by lia.
  eapply yields_conv; [do 3 step; apply yields_bind_raise, yields_lift
                      | reflexivity | reflexivity].
Qed.

(** The stage loop stops at the first missing entry, with every earlier
    stage built. *)
Lemma stage_loop_stops (s : resnet.t) (j : nat) :
  (j < List.length (resnet.f_vals s))%nat ->
  forallb (stage_ok s) (seq 0 j) = true ->
  (List.length (resnet.filter_sets s) <= j
   \/ List.length (resnet.s_vals s) <= j
   \/ List.length (resnet.i_vals s) <= j)%nat ->
  yields (stage_loop s) s (flat_map (stage_blocks s) (seq 0 j))
    (Raise IndexError).
Proof.
  intros Hj Hbefore Hshort. unfold stage_loop. rewrite range_len.
  replace (List.length (resnet.f_vals s))
    with (j + Datatypes.S (List.length (resnet.f_vals s) - j - 1))%nat by lia.
  rewrite seq_app, map_app.
  destruct (stage_for_yields s j 0 (Tensor (input_layers s) (front s)))
    as (ls & r & Hy & _ & Hr); [lia|].
  rewrite Hbefore in Hr. destruct Hr as [-> ->].
  eapply yields_conv.
  - eapply yields_for_app; [exact Hy|].
    cbn [seq map for_ Nat.add]. apply yields_bind_raise.
    now apply stage_body_missing.
  - now rewrite app_nil_r.
  - reflexivity.
Qed.

(** Entries beyond [len(f_vals)] are never read: lists longer than
    [f_vals] are accepted as they are, whatever the surplus holds. *)
Lemma longer_lists_are_accepted :
  (List.length (resnet.f_vals a_long_resnet)
   < List.length (resnet.filter_sets a_long_resnet))%nat
  /\ nth_error (resnet.i_vals a_long_resnet) 1 = Some 30
  /\ exists m X,
       outcome (resnet.model unknown_dim) a_long_resnet = Ok m
       /\ layers_of m
          = (front a_long_resnet ++ stage_blocks a_long_resnet 0
             ++ head unknown_dim a_long_resnet X)%list.
Proof.
  split; [simpl; lia|]. split; [reflexivity|].
  destruct (yields_run _ _ _ _
              (resnet_model_ok unknown_dim a_long_resnet eq_refl))
    as [_ Hout].
  eexists _, (Tensor [] []). split; [exact Hout | reflexivity].
Qed.

(** C5.  [resnet.model()] checks nothing ahead of the build.  When
    [filter_sets], [s_vals] or [i_vals] is shorter than [f_vals], the
    run ends with the [IndexError] of a subscript, raised while the
    graph is under construction: the inputs, the rescaling and the first
    convolution are already constructed, then only blocks of the stack,
    and nothing is constructed after the failure.  When stage [j] is the
    first one with a missing entry and the stages before it are fine,
    the layers constructed are exactly those up to stage [j]. *)
Theorem short_lists_raise (sd : tensor -> nat -> option Z) (s : resnet.t) :
  (List.length (resnet.filter_sets s) < List.length (resnet.f_vals s)
   \/ List.length (resnet.s_vals s) < List.length (resnet.f_vals s)
   \/ List.length (resnet.i_vals s) < List.length (resnet.f_vals s))%nat ->
  outcome (resnet.model sd) s = Raise IndexError
  /\ (exists blocks,
        built (resnet.model sd) s = (input_layers s ++ front s ++ blocks)%list
        /\ Forall (is_stage_block (resnet.normalization s)) blocks)
  /\ (forall j,
        (j < List.length (resnet.f_vals s))%nat ->
        forallb (stage_ok s) (seq 0 j) = true ->
        (List.length (resnet.filter_sets s) <= j
         \/ List.length (resnet.s_vals s) <= j
         \/ List.length (resnet.i_vals s) <= j)%nat ->
        built (resnet.model sd) s
        = (input_layers s ++ front s
           ++ flat_map (stage_blocks s) (seq 0 j))%list).
Proof.
  intros Hshort.
  assert (Hbad : forallb (stage_ok s) (seq 0 (List.length (resnet.f_vals s)))
                 = false).
  { set (k := Nat.min (List.length (resnet.filter_sets s))
                (Nat.min (List.length (resnet.s_vals s))
                   (List.length (resnet.i_vals s)))).
    apply (bad_stage s k); [lia|].
    unfold stage_ok.
    destruct (Nat.ltb_spec k (List.length (resnet.filter_sets s)));
      [|reflexivity].
    destruct (Nat.ltb_spec k (List.length (resnet.s_vals s)));
      [|reflexivity].
    destruct (Nat.ltb_spec k (List.length (resnet.i_vals s)));
      [lia|reflexivity]. }
  destruct (resnet_model_raises sd s Hbad) as (blocks & Hy & Hb).
  destruct (yields_run _ _ _ _ Hy) as [Hbuilt Hout].
  split; [exact Hout|]. split; [now exists blocks|].
  intros j Hj Hbefore Hmiss.
  pose proof (resnet_model_yields sd s _ _
                (stage_loop_stops s j Hj Hbefore Hmiss)) as Hy'.
  rewrite app_nil_r in Hy'. apply (yields_run _ _ _ _ Hy').
Qed.

Lemma short_lists_raise_witness :
  (List.length (resnet.filter_sets a_short_resnet)
   < List.length (resnet.f_vals a_short_resnet))%nat
  /\ outcome (resnet.model unknown_dim) a_short_resnet = Raise IndexError
  /\ built (resnet.model unknown_dim) a_short_resnet
     = (input_layers a_short_resnet ++ front a_short_resnet
        ++ stage_blocks a_short_resnet 0)%list.
Proof.
  split; [simpl; lia|].
  destruct (short_lists_raise unknown_dim a_short_resnet) as (H1 & _ & H3);
    [left; simpl; lia|].
  split; [exact H1|].
  rewrite (H3 1%nat);
    [reflexivity | simpl; lia | reflexivity | left; simpl; lia].
Defined.

(** C2.  For a pixel count [n] with [0 <= n < 2^53], the range in which
    the float [n / 2] is exact and [int] of it is [n / 2] rounded down,
    [baseline_nn_model.model()] returns a [Sequential] model made of
    [Dense(n, relu)] with input dimension [n], [Dense(n, relu)],
    [Dense(n / 2 rounded down, relu)] and [Dense(2, softmax)], with a
    [Dropout(dropout)] after each of the three hidden layers exactly
    when [dropout > 0]. *)
Theorem baseline_model_layers (s : baseline_nn_model.t) :
  0 <= baseline_nn_model.number_pixels s < 2 ^ 53 ->
  exists m,
    outcome baseline_nn_model.model s = Ok m
    /\ arch m
       = Sequential
           (let n := baseline_nn_model.number_pixels s in
            let dropout := baseline_nn_model.dropout s in
            if gt_zero dropout
            then [Dense n (Some n) (Some (InitNamed "normal")) "relu" None;
                  Dropout dropout;
                  Dense n None None "relu" None;
                  Dropout dropout;
                  Dense (n / 2) None None "relu" None;
                  Dropout dropout;
                  Dense 2 None (Some (InitNamed "normal")) "softmax" None]
            else [Dense n (Some n) (Some (InitNamed "normal")) "relu" None;
                  Dense n None None "relu" None;
                  Dense (n / 2) None None "relu" None;
                  Dense 2 None (Some (InitNamed "normal")) "softmax" None]).
Proof.
  intros Hn.
  destruct (yields_run _ _ _ _ (baseline_model_yields s)) as [_ Hout].
  rewrite (int_truediv_2_floor _ Hn) in Hout.
  eexists. split; [exact Hout|].
  cbn [arch]. unfold baseline_lower, baseline_upper, dropout_after.
  cbv zeta. now destruct (gt_zero (baseline_nn_model.dropout s)).
Qed.

Lemma baseline_model_layers_witness :
  0 <= baseline_nn_model.number_pixels a_baseline < 2 ^ 53
  /\ exists m,
       outcome baseline_nn_model.model a_baseline = Ok m
       /\ arch m
          = Sequential
              [Dense 512 (Some 512) (Some (InitNamed "normal")) "relu" None;
               Dropout (PyFloat one_half);
               Dense 512 None None "relu" None;
               Dropout (PyFloat one_half);
               Dense 256 None None "relu" None;
               Dropout (PyFloat one_half);
               Dense 2 None (Some (InitNamed "normal")) "softmax" None].
Proof.
  split; [simpl; lia|].
  apply (baseline_model_layers a_baseline). simpl. lia.
Defined.

(** C3.  [simple_combine_model.model()] returns a [Sequential] model
    that takes the [n_input] scores through [Dense(n_input, relu)] with
    input dimension [n_input] and [Dense(4, relu)] to
    [Dense(2, softmax)]. *)
Theorem combine_model_layers (s : simple_combine_model.t) :
  exists m,
    outcome simple_combine_model.model s = Ok m
    /\ arch m
       = Sequential
           (let n := simple_combine_model.n_input s in
            [Dense n (Some n) (Some (InitNamed "normal")) "relu" None;
             Dense 4 None None "relu" None;
             Dense 2 None (Some (InitNamed "normal")) "softmax" None]).
Proof.
  destruct (yields_run _ _ _ _ (combine_model_yields s)) as [_ Hout].
  eexists. split; [exact Hout | reflexivity].
Qed.

(** Whatever [model()] returns has been compiled with the fixed
    arguments. *)
Lemma baseline_returns_compiled (s : baseline_nn_model.t) (m : keras_model) :
  outcome baseline_nn_model.model s = Ok m ->
  compiled m = compiled_with (baseline_nn_model.lr s).
Proof.
  destruct (yields_run _ _ _ _ (baseline_model_yields s)) as [_ Hout].
  rewrite Hout.
  destruct (int_truediv (baseline_nn_model.number_pixels s) 2);
    [|discriminate].
  now intros [= <-].
Qed.

Lemma resnet_returns_compiled (sd : tensor -> nat -> option Z) (s : resnet.t)
  (m : keras_model) :
  outcome (resnet.model sd) s = Ok m ->
  compiled m = compiled_with (resnet.lr s).
Proof.
  destruct (resnet_model_runs sd s) as (blocks & r & Hy & _).
  destruct (yields_run _ _ _ _ Hy) as [_ Hout]. rewrite Hout.
  destruct r; [|discriminate]. now intros [= <-].
Qed.

(** C4.  Each of the three [model()] methods compiles what it assembled
    with the loss ['categorical_crossentropy'], an [Adam] optimizer on
    the learning rate stored at construction time and the single metric
    ['acc']: this holds of every model returned, and a model is returned
    for every simple_combine_model, for every baseline_nn_model whose
    pixel count is below 2^53 in magnitude and for every well-formed
    resnet.  The learning rate stored is the one given to [__init__]. *)
Theorem every_model_is_compiled (sd : tensor -> nat -> option Z)
  (b : baseline_nn_model.t) (r : resnet.t) (c : simple_combine_model.t) :
  (forall m, outcome baseline_nn_model.model b = Ok m ->
     compiled m = Some (Compile "categorical_crossentropy"
                          (Adam (baseline_nn_model.lr b)) ["acc"]))
  /\ (forall m, outcome (resnet.model sd) r = Ok m ->
        compiled m = Some (Compile "categorical_crossentropy"
                             (Adam (resnet.lr r)) ["acc"]))
  /\ (forall m, outcome simple_combine_model.model c = Ok m ->
        compiled m = Some (Compile "categorical_crossentropy"
                             (Adam (simple_combine_model.lr c)) ["acc"]))
  /\ (- 2 ^ 53 < baseline_nn_model.number_pixels b < 2 ^ 53 ->
      exists m, outcome baseline_nn_model.model b = Ok m)
  /\ (well_formed r -> exists m, outcome (resnet.model sd) r = Ok m)
  /\ (exists m, outcome simple_combine_model.model c = Ok m)
  /\ (forall strategy n dropout x,
        baseline_nn_model.lr
          (baseline_nn_model.__init__ strategy n (Some x) dropout) = x)
  /\ (forall fs fv sv iv ch shape aug norm cls x,
        resnet.lr
          (resnet.__init__ fs fv sv iv ch (Some x) shape aug norm cls) = x)
  /\ (forall strategy n x,
        simple_combine_model.lr
          (simple_combine_model.__init__ strategy (Some x) n) = x).
Proof.
  split; [apply baseline_returns_compiled|].
  split; [apply resnet_returns_compiled|].
  split.
  { intros m.
    destruct (yields_run _ _ _ _ (combine_model_yields c)) as [_ Hout].
    rewrite Hout. now intros [= <-]. }
  split.
  { intros Hn.
    destruct (yields_run _ _ _ _ (baseline_model_yields b)) as [_ Hout].
    rewrite (int_truediv_2 _ Hn) in Hout. eexists. exact Hout. }
  split.
  { intros Hwf.
    destruct (yields_run _ _ _ _ (resnet_model_ok sd r Hwf)) as [_ Hout].
    eexists. exact Hout. }
  split.
  { destruct (yields_run _ _ _ _ (combine_model_yields c)) as [_ Hout].
    eexists. exact Hout. }
  repeat split.
Qed.

Lemma every_model_is_compiled_witness :
  (exists m, outcome baseline_nn_model.model a_baseline = Ok m
             /\ compiled m = Some (Compile "categorical_crossentropy"
                                     (Adam lr_default) ["acc"]))
  /\ (exists m, outcome (resnet.model unknown_dim) a_resnet = Ok m
                /\ compiled m = Some (Compile "categorical_crossentropy"
                                        (Adam lr_default) ["acc"]))
  /\ (exists m, outcome simple_combine_model.model a_combiner = Ok m
                /\ compiled m = Some (Compile "categorical_crossentropy"
                                        (Adam lr_default) ["acc"])).
Proof.
  destruct (every_model_is_compiled unknown_dim a_baseline a_resnet a_combiner)
    as (Hb & Hr & Hc & Eb & Er & Ec & _).
  split; [|split].
  - destruct Eb as [m Hm]; [simpl; lia|]. exists m. split; [exact Hm|].
    exact (Hb m Hm).
  - destruct Er as [m Hm]; [reflexivity|]. exists m. split; [exact Hm|].
    exact (Hr m Hm).
  - destruct Ec as [m Hm]. exists m. split; [exact Hm|]. exact (Hc m Hm).
Defined.

Lemma last_of_three {A : Type} (l : list A) (a b c d : A) :
  last (l ++ [a; b; c]) d = c.
Proof.
  change [a; b; c] with ([a; b] ++ [c])%list. rewrite app_assoc.
  apply last_last.
Qed.

(** C6.  The model each builder returns declares the dimensions of its
    configuration: the baseline network starts with a layer of input
    dimension [number_pixels] and ends with 2 units, the combination
    network starts with input dimension [n_input] and ends with 2 units,
    and the ResNet has one image input per channel and ends with a
    [Dense] layer of [classes] units. *)
Theorem models_declare_dimensions (sd : tensor -> nat -> option Z)
  (b : baseline_nn_model.t) (r : resnet.t) (c : simple_combine_model.t) :
  - 2 ^ 53 < baseline_nn_model.number_pixels b < 2 ^ 53 ->
  well_formed r ->
  0 <= resnet.channels r ->
  (exists m ls,
     outcome baseline_nn_model.model b = Ok m
     /\ arch m = Sequential ls
     /\ hd_error ls
        = Some (Dense (baseline_nn_model.number_pixels b)
                  (Some (baseline_nn_model.number_pixels b))
                  (Some (InitNamed "normal")) "relu" None)
     /\ last ls Flatten
        = Dense 2 None (Some (InitNamed "normal")) "softmax" None)
  /\ (exists m ls,
        outcome simple_combine_model.model c = Ok m
        /\ arch m = Sequential ls
        /\ hd_error ls
           = Some (Dense (simple_combine_model.n_input c)
                     (Some (simple_combine_model.n_input c))
                     (Some (InitNamed "normal")) "relu" None)
        /\ last ls Flatten
           = Dense 2 None (Some (InitNamed "normal")) "softmax" None)
  /\ (exists m ins X,
        outcome (resnet.model sd) r = Ok m
        /\ arch m = Model ins X "ResNet50"
        /\ sources X = ins
        /\ Z.of_nat (List.length ins) = resnet.channels r
        /\ Forall (fun l => exists name, l = Input [None; None; Some 1] name)
             ins
        /\ last (applied X) Flatten
           = Dense (resnet.classes r) None (Some (glorot_uniform 0)) "softmax"
               (Some ("fc" ++ str (resnet.classes r)))).
Proof.
  intros Hn Hwf Hch. split; [|split].
  - destruct (yields_run _ _ _ _ (baseline_model_yields b)) as [_ Hout].
    rewrite (int_truediv_2 _ Hn) in Hout.
    eexists _, _. split; [exact Hout|]. split; [reflexivity|].
    unfold baseline_lower, baseline_upper, dropout_after.
    now destruct (gt_zero (baseline_nn_model.dropout b)).
  - destruct (yields_run _ _ _ _ (combine_model_yields c)) as [_ Hout].
    eexists _, _. split; [exact Hout|]. now repeat split.
  - destruct (yields_run _ _ _ _ (resnet_model_ok sd r Hwf)) as [_ Hout].
    eexists _, _, _. split; [exact Hout|]. split; [reflexivity|].
    cbn [sources applied]. split; [reflexivity|]. split; [|split].
    + unfold input_layers, range. rewrite !length_map, length_seq. lia.
    + apply Forall_forall. intros l Hl. apply in_map_iff in Hl.
      destruct Hl as (i & <- & _). eexists. reflexivity.
    + unfold head. apply last_of_three.
Qed.

Lemma models_declare_dimensions_witness :
  - 2 ^ 53 < baseline_nn_model.number_pixels a_plain_baseline < 2 ^ 53
  /\ well_formed a_resnet
  /\ 0 <= resnet.channels a_resnet
  /\ exists m ins X,
       outcome (resnet.model unknown_dim) a_resnet = Ok m
       /\ arch m = Model ins X "ResNet50"
       /\ Z.of_nat (List.length ins) = 6
       /\ last (applied X) Flatten
          = Dense 2 None (Some (glorot_uniform 0)) "softmax" (Some "fc2").
Proof.
  split; [simpl; lia|]. split; [reflexivity|]. split; [simpl; lia|].
  destruct (models_declare_dimensions unknown_dim a_plain_baseline a_resnet
              a_combiner) as (_ & _ & m & ins & X & H1 & H2 & _ & H4 & _ & H6);
    [simpl; lia | reflexivity | simpl; lia |].
  exists m, ins, X. split; [exact H1|]. split; [exact H2|].
  split; [exact H4 | exact H6].
Defined.

Lemma Forall_flat_map_blocks (s : resnet.t) :
  Forall (is_stage_block (resnet.normalization s)) (stage_stack s).
Proof.
  unfold stage_stack. apply Forall_flat_map, Forall_forall.
  intros i _. apply stage_blocks_are_blocks.
Qed.

Lemma no_flip_in_inputs (s : resnet.t) (name : string) :
  ~ In (RandomFlip name) (input_layers s).
Proof.
  unfold input_layers. intros H. apply in_map_iff in H.
  destruct H as (i & Hi & _). discriminate.
Qed.

Lemma no_flip_in_blocks (norm : bool) (blocks : list layer) (name : string) :
  Forall (is_stage_block norm) blocks -> ~ In (RandomFlip name) blocks.
Proof.
  intros Hb H. rewrite Forall_forall in Hb. exact (Hb _ H).
Qed.

Lemma flip_in_front (s : resnet.t) (name : string) :
  In (RandomFlip name) (front s)
  <-> name = "aug_reflect" /\ resnet.augmentation s = true.
Proof.
  unfold front, rescaling, stem.
  destruct (resnet.augmentation s); cbn [app In]; split.
  - intros [H|[H|[H|[H|[H|[H|[H|[]]]]]]]]; try discriminate.
    injection H as <-. now split.
  - intros [-> _]. auto.
  - intros [H|[H|[H|[H|[H|[H|[]]]]]]]; discriminate.
  - intros [_ H]. discriminate.
Qed.

Lemma no_flip_in_head (sd : tensor -> nat -> option Z) (s : resnet.t)
  (X : tensor) (name : string) :
  ~ In (RandomFlip name) (head sd s X).
Proof. unfold head. cbn [In]. intros [H|[H|[H|[]]]]; discriminate. Qed.

(** C7.  The flip is optional and follows the constructor flag: a
    [RandomFlip] layer is constructed, and is part of the model
    returned, if and only if [augmentation] is true; without it the
    padded tensor goes straight into the first convolution.
    [augmentation] is the flag given to [__init__], true when left
    out. *)
Theorem flip_iff_augmentation (sd : tensor -> nat -> option Z) (s : resnet.t) :
  (forall name,
     In (RandomFlip name) (built (resnet.model sd) s)
     <-> name = "aug_reflect" /\ resnet.augmentation s = true)
  /\ (forall m, outcome (resnet.model sd) s = Ok m ->
        (forall name,
           In (RandomFlip name) (layers_of m)
           <-> name = "aug_reflect" /\ resnet.augmentation s = true)
        /\ (resnet.augmentation s = false ->
            exists rest,
              layers_of m
              = ImageScaleBlock (resnet.input_shape s) true "scaled_input_"
                :: ZeroPadding2D (3, 3)
                :: Conv2D 64 (7, 7) (2, 2) "conv1" (glorot_uniform 0)
                :: rest)
        /\ (resnet.augmentation s = true ->
            exists rest,
              layers_of m
              = ImageScaleBlock (resnet.input_shape s) true "scaled_input_"
                :: ZeroPadding2D (3, 3)
                :: RandomFlip "aug_reflect"
                :: Conv2D 64 (7, 7) (2, 2) "conv1" (glorot_uniform 0)
                :: rest))
  /\ (well_formed s -> exists m, outcome (resnet.model sd) s = Ok m)
  /\ (forall fs fv sv iv ch lr shape aug norm cls,
        resnet.augmentation
          (resnet.__init__ fs fv sv iv ch lr shape aug norm cls)
        = match aug with Some flag => flag | None => true end).
Proof.
  split; [|split; [|split]].
  - intros name.
    destruct (resnet_model_runs sd s) as (blocks & r & Hy & Hb & _).
    destruct (yields_run _ _ _ _ Hy) as [-> _].
    rewrite !in_app_iff, flip_in_front. split.
    + intros [H|[H|[H|H]]]; [| exact H | |].
      * now apply no_flip_in_inputs in H.
      * now apply (no_flip_in_blocks _ _ _ Hb) in H.
      * destruct r; [now apply no_flip_in_head in H | destruct H].
    + auto.
  - intros m Hm. destruct (resnet_returns sd s m Hm) as [_ ->].
    unfold layers_of, resnet_result. cbn [arch applied].
    split; [|split].
    + intros name. rewrite !in_app_iff, flip_in_front. split.
      * intros [[H|H]|H]; [exact H | |].
        -- now apply (no_flip_in_blocks _ _ _
                        (Forall_flat_map_blocks s)) in H.
        -- now apply no_flip_in_head in H.
      * auto.
    + intros Haug. unfold front, rescaling, stem. rewrite Haug.
      cbn [app]. eexists. reflexivity.
    + intros Haug. unfold front, rescaling, stem. rewrite Haug.
      cbn [app]. eexists. reflexivity.
  - intros Hwf.
    destruct (yields_run _ _ _ _ (resnet_model_ok sd s Hwf)) as [_ Hout].
    eexists. exact Hout.
  - reflexivity.
Qed.

Lemma flip_iff_augmentation_witness :
  In (RandomFlip "aug_reflect") (built (resnet.model unknown_dim) a_resnet)
  /\ ~ In (RandomFlip "aug_reflect")
         (built (resnet.model unknown_dim) a_bare_resnet)
  /\ exists m rest,
       outcome (resnet.model unknown_dim) a_bare_resnet = Ok m
       /\ layers_of m
          = ImageScaleBlock (128, 16) true "scaled_input_"
            :: ZeroPadding2D (3, 3)
            :: Conv2D 64 (7, 7) (2, 2) "conv1" (glorot_uniform 0)
            :: rest.
Proof.
  split; [|split].
  - destruct (flip_iff_augmentation unknown_dim a_resnet) as (Hb & _).
    apply (proj2 (Hb "aug_reflect")). split; reflexivity.
  - intros H.
    destruct (flip_iff_augmentation unknown_dim a_bare_resnet) as (Hb & _).
    destruct (proj1 (Hb "aug_reflect") H) as [_ Hoff]. discriminate Hoff.
  - destruct (flip_iff_augmentation unknown_dim a_bare_resnet)
      as (_ & Hm & Hex & _).
    destruct Hex as [m Hout]; [reflexivity|].
    destruct (Hm m Hout) as (_ & Hoff & _).
    destruct Hoff as [rest Hrest]; [reflexivity|].
    exists m, rest. split; [exact Hout | exact Hrest].
Defined.

(** C8.  [model()] only reads the configuration.  From any log, each of
    the three methods leaves the instance as [__init__] made it, every
    attribute included, and a second call ends as the first one did. *)
Theorem model_leaves_attributes (sd : tensor -> nat -> option Z)
  (b : baseline_nn_model.t) (r : resnet.t) (c : simple_combine_model.t)
  (log : list layer) :
  (self (fst (baseline_nn_model.model (World b log))) = b
   /\ snd (baseline_nn_model.model
             (fst (baseline_nn_model.model (World b log))))
      = snd (baseline_nn_model.model (World b log)))
  /\ (self (fst (resnet.model sd (World r log))) = r
      /\ snd (resnet.model sd (fst (resnet.model sd (World r log))))
         = snd (resnet.model sd (World r log)))
  /\ (self (fst (simple_combine_model.model (World c log))) = c
      /\ snd (simple_combine_model.model
                (fst (simple_combine_model.model (World c log))))
         = snd (simple_combine_model.model (World c log))).
Proof.
  split; [|split].
  - exact (yields_again _ _ _ _ log (baseline_model_yields b)).
  - destruct (resnet_model_runs sd r) as (blocks & t & Hy & _).
    exact (yields_again _ _ _ _ log Hy).
  - exact (yields_again _ _ _ _ log (combine_model_yields c)).
Qed.

Lemma stage_stack_with_normalization (flag : bool) (s : resnet.t) :
  stage_stack (with_normalization flag s) = map (set_flag flag) (stage_stack s).
Proof.
  unfold stage_stack. cbn [with_normalization resnet.f_vals].
  induction (seq 0 (List.length (resnet.f_vals s))) as [|i l IH].
  - reflexivity.
  - cbn [flat_map]. rewrite map_app, IH. f_equal.
    unfold stage_blocks, identity_blocks.
    cbn [with_normalization resnet.f_vals resnet.filter_sets resnet.s_vals
         resnet.i_vals resnet.normalization map set_flag].
    f_equal. rewrite map_map. reflexivity.
Qed.

(** C9.  The rescaling ignores the [normalization] flag of the instance.
    Whatever the flag, the layers [resnet.model()] constructs are the
    inputs, [ImageScaleBlock] with [normalization=True], the padding,
    the optional flip and the first convolution, then blocks of the
    stack, then nothing or the head.  The flag of the instance appears
    in the [ConvolutionBlock]s and [IdentityBlock]s, and in no other
    layer: on a well-formed instance, another flag changes the flag of
    the blocks and leaves every other layer as it was, up to the pool
    size read from [X.shape]. *)
Theorem rescaling_always_normalizes (sd : tensor -> nat -> option Z)
  (s : resnet.t) :
  (exists blocks tail,
     built (resnet.model sd) s
     = (input_layers s
        ++ [ImageScaleBlock (resnet.input_shape s) true "scaled_input_";
            ZeroPadding2D (3, 3)]
        ++ (if resnet.augmentation s then [RandomFlip "aug_reflect"] else [])
        ++ [Conv2D 64 (7, 7) (2, 2) "conv1" (glorot_uniform 0);
            BatchNormalization 3 "bn_conv1";
            Activation "relu";
            MaxPooling2D (3, 3) (2, 2)]
        ++ blocks ++ tail)%list
     /\ Forall (is_stage_block (resnet.normalization s)) blocks
     /\ (well_formed s -> blocks = stage_stack s)
     /\ (tail = []
         \/ exists pool,
              tail = [AveragePooling2D pool "avg_pool";
                      Flatten;
                      Dense (resnet.classes s) None (Some (glorot_uniform 0))
                        "softmax" (Some ("fc" ++ str (resnet.classes s)))]))
  /\ (forall shape norm prefix,
        In (ImageScaleBlock shape norm prefix) (built (resnet.model sd) s) ->
        norm = true)
  /\ (forall f filters stage block sv norm,
        In (ConvolutionBlock f filters stage block sv norm)
           (built (resnet.model sd) s) ->
        norm = resnet.normalization s)
  /\ (forall f filters stage block norm,
        In (IdentityBlock f filters stage block norm)
           (built (resnet.model sd) s) ->
        norm = resnet.normalization s)
  /\ (well_formed s ->
      forall flag, exists pool,
        built (resnet.model sd) (with_normalization flag s)
        = (input_layers s ++ front s
           ++ map (set_flag flag) (stage_stack s)
           ++ [AveragePooling2D pool "avg_pool";
               Flatten;
               Dense (resnet.classes s) None (Some (glorot_uniform 0))
                 "softmax"
                 (Some ("fc" ++ str (resnet.classes s))%string)])%list).
Proof.
  destruct (resnet_model_runs sd s) as (blocks & r & Hy & Hb & Hr).
  destruct (yields_run _ _ _ _ Hy) as [Hbuilt _].
  assert (Htail : match r with Ok X => head sd s X | Raise _ => [] end = []
                  \/ exists pool,
                       match r with Ok X => head sd s X | Raise _ => [] end
                       = [AveragePooling2D pool "avg_pool";
                          Flatten;
                          Dense (resnet.classes s) None
                            (Some (glorot_uniform 0)) "softmax"
                            (Some ("fc" ++ str (resnet.classes s)))]).
  { destruct r; [right; eexists; reflexivity | now left]. }
  assert (Hshape : forall l,
            In l (built (resnet.model sd) s) ->
            match l with
            | ImageScaleBlock _ norm _ => norm = true
            | ConvolutionBlock _ _ _ _ _ norm => norm = resnet.normalization s
            | IdentityBlock _ _ _ _ norm => norm = resnet.normalization s
            | _ => True
            end).
  { intros l. rewrite Hbuilt, !in_app_iff.
    intros [H|[H|[H|H]]].
    - unfold input_layers in H. apply in_map_iff in H.
      now destruct H as (i & <- & _).
    - unfold front, rescaling, stem in H.
      destruct (resnet.augmentation s); cbn [app In] in H;
        repeat (destruct H as [<-|H]; [exact I || reflexivity|]);
        destruct H.
    - rewrite Forall_forall in Hb. specialize (Hb l H).
      destruct l; try destruct Hb; reflexivity.
    - destruct Htail as [Ht|[pool Ht]]; rewrite Ht in H; cbn [In] in H.
      + destruct H.
      + repeat (destruct H as [<-|H]; [exact I|]). destruct H. }
  split.
  - exists blocks, (match r with Ok X => head sd s X | Raise _ => [] end).
    split; [|split; [exact Hb|split; [|exact Htail]]].
    + rewrite Hbuilt. unfold front, rescaling, stem.
      now rewrite <- !app_assoc.
    + intros Hwf. unfold well_formed in Hwf. rewrite Hwf in Hr. apply Hr.
  - split; [|split; [|split]].
    + intros shape norm prefix H. exact (Hshape _ H).
    + intros f filters stage block sv norm H. exact (Hshape _ H).
    + intros f filters stage block norm H. exact (Hshape _ H).
    + intros Hwf flag.
      assert (Hwf' : well_formed (with_normalization flag s)) by exact Hwf.
      destruct (yields_run _ _ _ _
                  (resnet_model_ok sd (with_normalization flag s) Hwf'))
        as [Hb' _].
      rewrite Hb', stage_stack_with_normalization.
      eexists. reflexivity.
Qed.

Lemma rescaling_always_normalizes_witness :
  resnet.normalization a_bare_resnet = false
  /\ In (ImageScaleBlock (128, 16) true "scaled_input_")
        (built (resnet.model unknown_dim) a_bare_resnet)
  /\ In (ConvolutionBlock 3 [64; 64; 256] 1 "a" 1 false)
        (built (resnet.model unknown_dim) a_bare_resnet).
Proof.
  split; [reflexivity|].
  destruct (rescaling_always_normalizes unknown_dim a_bare_resnet)
    as ((blocks & tail & Hbuilt & _ & Hstack & _) & _).
  rewrite Hbuilt, (Hstack eq_refl). split.
  - apply in_or_app. right. left. reflexivity.
  - apply in_or_app. right. apply in_or_app. right.
    apply in_or_app. right. apply in_or_app. right.
    apply in_or_app. left. left. reflexivity.
Defined.

(** ** Further properties of the builders *)

(** X1.  Without kernel sizes there is no stage: when [f_vals] is empty
    [resnet.model()] returns, whatever the other three lists hold, and
    the head follows the first convolution directly. *)
Theorem no_kernel_sizes_no_stage (sd : tensor -> nat -> option Z)
  (s : resnet.t) :
  resnet.f_vals s = [] ->
  exists m,
    outcome (resnet.model sd) s = Ok m
    /\ layers_of m
       = (rescaling s ++ stem
          ++ head sd s (Tensor (input_layers s) (rescaling s ++ stem)))%list
    /\ block_keys (layers_of m) = [].
Proof.
  intros Hf.
  assert (Hwf : well_formed s) by (unfold well_formed; now rewrite Hf).
  destruct (yields_run _ _ _ _ (resnet_model_ok sd s Hwf)) as [_ Hout].
  assert (Hstack : stage_stack s = []) by (unfold stage_stack; now rewrite Hf).
  rewrite Hstack, app_nil_r in Hout.
  eexists. split; [exact Hout|].
  unfold layers_of, resnet_result, front. cbn [arch applied].
  split; [now rewrite <- app_assoc|].
  unfold rescaling, stem, head. now destruct (resnet.augmentation s).
Qed.

Lemma no_kernel_sizes_no_stage_witness :
  resnet.f_vals a_stageless_resnet = []
  /\ resnet.i_vals a_stageless_resnet = [30]
  /\ exists m,
       outcome (resnet.model unknown_dim) a_stageless_resnet = Ok m
       /\ block_keys (layers_of m) = [].
Proof.
  split; [reflexivity|]. split; [reflexivity|].
  destruct (no_kernel_sizes_no_stage unknown_dim a_stageless_resnet)
    as (m & H1 & _ & H3); [reflexivity|].
  exists m. split; [exact H1 | exact H3].
Defined.

(** X8.  The pooling window is read from the static shape of the tensor
    that leaves the last stage: [(1, 2)] when axis 1 has size 1, even if
    axis 2 has size 1 as well; [(2, 1)] when only axis 2 has size 1;
    [(2, 2)] otherwise, an unknown size counting as not 1.  It is never
    [(1, 1)]. *)
Theorem pool_size_follows_static_shape (sd : tensor -> nat -> option Z)
  (s : resnet.t) :
  well_formed s ->
  let X := Tensor (input_layers s) (front s ++ stage_stack s) in
  exists m pool rest,
    outcome (resnet.model sd) s = Ok m
    /\ layers_of m
       = (front s ++ stage_stack s
          ++ AveragePooling2D pool "avg_pool" :: rest)%list
    /\ (sd X 1%nat = Some 1 -> pool = (1, 2))
    /\ (sd X 1%nat <> Some 1 -> sd X 2%nat = Some 1 -> pool = (2, 1))
    /\ (sd X 1%nat <> Some 1 -> sd X 2%nat <> Some 1 -> pool = (2, 2))
    /\ pool <> (1, 1).
Proof.
  intros Hwf X.
  destruct (yields_run _ _ _ _ (resnet_model_ok sd s Hwf)) as [_ Hout].
  eexists _, _, _. split; [exact Hout|]. split.
  { unfold layers_of, resnet_result, head. cbn [arch applied].
    rewrite <- app_assoc. reflexivity. }
  fold X. unfold resnet.dim_is_one.
  destruct (sd X 1%nat) as [d1|]; [destruct (Z.eqb_spec d1 1) as [->|Hd1]|];
    (destruct (sd X 2%nat) as [d2|];
     [destruct (Z.eqb_spec d2 1) as [->|Hd2]|]);
    repeat split; intros; try congruence.
Qed.

Lemma pool_size_follows_static_shape_witness :
  well_formed a_resnet
  /\ exists m rest,
       outcome (resnet.model unit_dim) a_resnet = Ok m
       /\ layers_of m
          = (front a_resnet ++ stage_stack a_resnet
             ++ AveragePooling2D (1, 2) "avg_pool" :: rest)%list.
Proof.
  split; [reflexivity|].
  destruct (pool_size_follows_static_shape unit_dim a_resnet)
    as (m & pool & rest & H1 & H2 & H3 & _); [reflexivity|].
  exists m, rest. split; [exact H1|].
  rewrite <- (H3 eq_refl). exact H2.
Defined.

(** X6.  Nothing is constructed and dropped: when a [model()] returns,
    the layers it constructed are, in construction order, the inputs of
    the model followed by its layers. *)
Theorem every_layer_built_is_in_the_model (sd : tensor -> nat -> option Z)
  (b : baseline_nn_model.t) (r : resnet.t) (c : simple_combine_model.t) :
  (forall m, outcome baseline_nn_model.model b = Ok m ->
     built baseline_nn_model.model b = (inputs_of m ++ layers_of m)%list)
  /\ (forall m, outcome (resnet.model sd) r = Ok m ->
        built (resnet.model sd) r = (inputs_of m ++ layers_of m)%list)
  /\ (forall m, outcome simple_combine_model.model c = Ok m ->
        built simple_combine_model.model c
        = (inputs_of m ++ layers_of m)%list).
Proof.
  split; [|split].
  - intros m.
    destruct (yields_run _ _ _ _ (baseline_model_yields b)) as [-> ->].
    destruct (int_truediv (baseline_nn_model.number_pixels b) 2);
      [|discriminate].
    now intros [= <-].
  - intros m Hm. destruct (resnet_returns sd r m Hm) as [Hwf ->].
    destruct (yields_run _ _ _ _ (resnet_model_ok sd r Hwf)) as [-> _].
    unfold inputs_of, layers_of, resnet_result. cbn [arch applied].
    now rewrite <- !app_assoc.
  - intros m.
    destruct (yields_run _ _ _ _ (combine_model_yields c)) as [-> ->].
    now intros [= <-].
Qed.

Lemma every_layer_built_is_in_the_model_witness :
  exists m,
    outcome (resnet.model unknown_dim) a_resnet = Ok m
    /\ built (resnet.model unknown_dim) a_resnet
       = (inputs_of m ++ layers_of m)%list.
Proof.
  destruct (yields_run _ _ _ _ (resnet_model_ok unknown_dim a_resnet eq_refl))
    as [_ Hout].
  eexists. split; [exact Hout|].
  apply (proj1 (proj2 (every_layer_built_is_in_the_model unknown_dim
                         a_baseline a_resnet a_combiner))).
  exact Hout.
Defined.

(** X9.  By default there is no dropout: a baseline network made without
    a [dropout] argument gets the int [-1], and its model is the four
    [Dense] layers alone, compiled with the default learning rate when
    none is given either. *)
Theorem default_baseline_has_no_dropout (strategy : strategy_ref) (n : Z)
  (lr : option pynum) :
  0 <= n < 2 ^ 53 ->
  exists m,
    outcome baseline_nn_model.model
      (baseline_nn_model.__init__ strategy n lr None) = Ok m
    /\ arch m
       = Sequential
           [Dense n (Some n) (Some (InitNamed "normal")) "relu" None;
            Dense n None None "relu" None;
            Dense (n / 2) None None "relu" None;
            Dense 2 None (Some (InitNamed "normal")) "softmax" None]
    /\ filter is_dropout
         (built baseline_nn_model.model
            (baseline_nn_model.__init__ strategy n lr None)) = []
    /\ compiled m
       = Some (Compile "categorical_crossentropy"
                 (Adam (match lr with Some x => x | None => lr_default end))
                 ["acc"]).
Proof.
  intros Hn.
  destruct (yields_run _ _ _ _
              (baseline_model_yields
                 (baseline_nn_model.__init__ strategy n lr None)))
    as [Hbuilt Hout].
  cbn [baseline_nn_model.__init__ baseline_nn_model.number_pixels] in *.
  rewrite (int_truediv_2_floor _ Hn) in Hbuilt, Hout.
  eexists. split; [exact Hout|].
  split; [reflexivity|]. split; [|reflexivity].
  rewrite Hbuilt. reflexivity.
Qed.

Lemma default_baseline_has_no_dropout_witness :
  0 <= 512 < 2 ^ 53
  /\ exists m,
       outcome baseline_nn_model.model a_plain_baseline = Ok m
       /\ dense_units (layers_of m) = [512; 512; 256; 2].
Proof.
  split; [lia|].
  destruct (default_baseline_has_no_dropout (Strategy 0) 512 None)
    as (m & H1 & H2 & _); [lia|].
  exists m. split; [exact H1|].
  unfold layers_of. rewrite H2. reflexivity.
Defined.



(** Every layer of a run of [resnet.model] is an input, a layer of the
    front, a block of the stack or a layer of the head. *)
Lemma resnet_layer_cases (sd : tensor -> nat -> option Z) (s : resnet.t)
  (l : layer) :
  In l (built (resnet.model sd) s) ->
  In l (input_layers s) \/ In l (front s)
  \/ is_stage_block (resnet.normalization s) l
  \/ exists X, In l (head sd s X).
Proof.
  destruct (resnet_model_runs sd s) as (blocks & r & Hy & Hb & _).
  destruct (yields_run _ _ _ _ Hy) as [-> _].
  rewrite !in_app_iff. intros [H|[H|[H|H]]]; auto.
  - right. right. left. rewrite Forall_forall in Hb. now apply Hb.
  - destruct r as [X|e]; [|destruct H]. right. right. right. now exists X.
Qed.



(** X12.  Only the two [Sequential] builders work under a distribution
    strategy: their model is created in the scope of the strategy given
    to [__init__]; [resnet] takes no strategy and creates its model
    outside any scope. *)
Theorem only_sequential_models_are_scoped (sd : tensor -> nat -> option Z)
  (b : baseline_nn_model.t) (r : resnet.t) (c : simple_combine_model.t) :
  (forall m, outcome baseline_nn_model.model b = Ok m ->
     scope m = Some (baseline_nn_model.strategy b))
  /\ (forall m, outcome simple_combine_model.model c = Ok m ->
        scope m = Some (simple_combine_model.strategy c))
  /\ (forall m, outcome (resnet.model sd) r = Ok m -> scope m = None)
  /\ (forall strategy n lr dropout,
        baseline_nn_model.strategy
          (baseline_nn_model.__init__ strategy n lr dropout) = strategy)
  /\ (forall strategy lr n,
        simple_combine_model.strategy
          (simple_combine_model.__init__ strategy lr n) = strategy).
Proof.
  split; [|split; [|split; [|split]]]; try reflexivity.
  - intros m.
    destruct (yields_run _ _ _ _ (baseline_model_yields b)) as [_ ->].
    destruct (int_truediv (baseline_nn_model.number_pixels b) 2);
      [|discriminate].
    now intros [= <-].
  - intros m.
    destruct (yields_run _ _ _ _ (combine_model_yields c)) as [_ ->].
    now intros [= <-].
  - intros m Hm. now destruct (resnet_returns sd r m Hm) as [_ ->].
Qed.

Lemma only_sequential_models_are_scoped_witness :
  (exists m, outcome baseline_nn_model.model a_baseline = Ok m
             /\ scope m = Some (Strategy 0))
  /\ (exists m, outcome (resnet.model unknown_dim) a_resnet = Ok m
                /\ scope m = None).
Proof.
  destruct (only_sequential_models_are_scoped unknown_dim a_baseline a_resnet
              a_combiner) as (Hb & _ & Hr & _).
  split.
  - destruct (yields_run _ _ _ _ (baseline_model_yields a_baseline))
      as [_ Hout].
    eexists. split; [exact Hout|]. apply Hb. exact Hout.
  - destruct (yields_run _ _ _ _
                (resnet_model_ok unknown_dim a_resnet eq_refl)) as [_ Hout].
    eexists. split; [exact Hout|]. apply Hr. exact Hout.
Defined.



Lemma forallb_same {A : Type} (f g : A -> bool) (l : list A) :
  (forall a, In a l -> f a = g a) -> forallb f l = forallb g l.
Proof.
  induction l as [|a l IH]; intros H; cbn [forallb]; [reflexivity|].
  rewrite (H a (or_introl eq_refl)), IH; [reflexivity|].
  intros x Hx. apply H. now right.
Qed.

Lemma flat_map_same {A B : Type} (f g : A -> list B) (l : list A) :
  (forall a, In a l -> f a = g a) -> flat_map f l = flat_map g l.
Proof.
  induction l as [|a l IH]; intros H; cbn [flat_map]; [reflexivity|].
  rewrite (H a (or_introl eq_refl)), IH; [reflexivity|].
  intros x Hx. apply H. now right.
Qed.

Lemma nth_firstn_below {A : Type} (n i : nat) (l : list A) (d : A) :
  (i < n)%nat -> nth i (firstn n l) d = nth i l d.
Proof.
  intros Hi. rewrite nth_firstn.
  now replace (i <? n)%nat with true by (symmetry; now apply Nat.ltb_lt).
Qed.

Lemma ltb_length_firstn {A : Type} (n i : nat) (l : list A) :
  (i < n)%nat ->
  (i <? List.length (firstn n l))%nat = (i <? List.length l)%nat.
Proof.
  intros Hi. rewrite length_firstn.
  destruct (Nat.ltb_spec i (List.length l));
    [apply Nat.ltb_lt | apply Nat.ltb_ge]; lia.
Qed.

Lemma stage_ok_truncated (s : resnet.t) (i : nat) :
  (i < List.length (resnet.f_vals s))%nat ->
  stage_ok (truncated s) i = stage_ok s i.
Proof.
  intros Hi. unfold stage_ok, truncated.
  cbn [resnet.filter_sets resnet.s_vals resnet.i_vals].
  now rewrite !ltb_length_firstn, nth_firstn_below by exact Hi.
Qed.

Lemma stage_blocks_truncated (s : resnet.t) (i : nat) :
  (i < List.length (resnet.f_vals s))%nat ->
  stage_blocks (truncated s) i = stage_blocks s i.
Proof.
  intros Hi. unfold stage_blocks, truncated.
  cbn [resnet.filter_sets resnet.f_vals resnet.s_vals resnet.i_vals
       resnet.normalization].
  now rewrite !nth_firstn_below by exact Hi.
Qed.

(** X2.  Entries beyond [len(f_vals)] are never read: cutting
    [filter_sets], [s_vals] and [i_vals] to the length of [f_vals]
    changes nothing in what [resnet.model()] returns or raises. *)
Theorem surplus_entries_are_never_read (sd : tensor -> nat -> option Z)
  (s : resnet.t) :
  outcome (resnet.model sd) (truncated s) = outcome (resnet.model sd) s.
Proof.
  destruct (resnet_model_runs sd s) as (b1 & r1 & Hy1 & _ & Hr1).
  destruct (resnet_model_runs sd (truncated s)) as (b2 & r2 & Hy2 & _ & Hr2).
  destruct (yields_run _ _ _ _ Hy1) as [_ ->].
  destruct (yields_run _ _ _ _ Hy2) as [_ ->].
  assert (Hok : forallb (stage_ok (truncated s))
                  (seq 0 (List.length (resnet.f_vals (truncated s))))
                = forallb (stage_ok s)
                    (seq 0 (List.length (resnet.f_vals s)))).
  { apply forallb_same. intros i Hi. apply in_seq in Hi.
    apply stage_ok_truncated. cbn in Hi. lia. }
  assert (Hstack : stage_stack (truncated s) = stage_stack s).
  { unfold stage_stack. apply flat_map_same. intros i Hi. apply in_seq in Hi.
    apply stage_blocks_truncated. cbn in Hi. lia. }
  rewrite Hok in Hr2.
  destruct (forallb (stage_ok s) (seq 0 (List.length (resnet.f_vals s)))).
  - destruct Hr1 as [_ ->]. destruct Hr2 as [_ ->].
    rewrite Hstack. reflexivity.
  - now subst r1 r2.
Qed.

Lemma stage_loop_fails_at (s : resnet.t) (j : nat) (ls : list layer) :
  (j < List.length (resnet.f_vals s))%nat ->
  forallb (stage_ok s) (seq 0 j) = true ->
  (forall X,
     yields (resnet.stage_body (resnet.filter_sets s) (resnet.f_vals s)
               (resnet.s_vals s) (resnet.i_vals s) (resnet.normalization s)
               (Z.of_nat j) X) s ls (Raise IndexError)) ->
  yields (stage_loop s) s (flat_map (stage_blocks s) (seq 0 j) ++ ls)
    (Raise IndexError).
Proof.
  intros Hj Hbefore Hbody. unfold stage_loop. rewrite range_len.
  replace (List.length (resnet.f_vals s))
    with (j + Datatypes.S (List.length (resnet.f_vals s) - j - 1))%nat by lia.
  rewrite seq_app, map_app.
  destruct (stage_for_yields s j 0 (Tensor (input_layers s) (front s)))
    as (ls0 & r & Hy & _ & Hr); [lia|].
  rewrite Hbefore in Hr. destruct Hr as [-> ->].
  eapply yields_for_app; [exact Hy|].
  cbn [seq map for_ Nat.add]. apply yields_bind_raise. apply Hbody.
Qed.

Lemma stage_body_out_of_letters (s : resnet.t) (i : nat) (X : tensor) :
  (i < List.length (resnet.f_vals s))%nat ->
  (i < List.length (resnet.filter_sets s))%nat ->
  (i < List.length (resnet.s_vals s))%nat ->
  (i < List.length (resnet.i_vals s))%nat ->
  25 < nth i (resnet.i_vals s) 0 ->
  yields (resnet.stage_body (resnet.filter_sets s) (resnet.f_vals s)
            (resnet.s_vals s) (resnet.i_vals s) (resnet.normalization s)
            (Z.of_nat i) X) s
    (ConvolutionBlock (nth i (resnet.f_vals s) 0)
       (nth i (resnet.filter_sets s) []) (Z.of_nat i + 1) "a"
       (nth i (resnet.s_vals s) 0) (resnet.normalization s)
     :: identity_blocks (nth i (resnet.f_vals s) 0)
          (nth i (resnet.filter_sets s) []) (Z.of_nat i + 1)
          (resnet.normalization s) 25)
    (Raise IndexError).
Proof.
  intros Hf H1 H2 H3 Hbig. unfold resnet.stage_body.
  rewrite (getitem_nat _ _ [] H1), (getitem_nat _ _ 0 Hf),
    (getitem_nat _ _ 0 H2), (getitem_nat _ _ 0 H3).
  eapply yields_conv;
    [do 5 step; apply identity_loop_raise; exact Hbig
    | reflexivity | reflexivity].
Qed.

(** X3.  Where the letters run out.  When stage [j] is the first stage
    that cannot be built and it asks for more than 25 identity blocks,
    [resnet.model()] raises [IndexError] only after it has constructed
    every earlier stage, the convolution block of stage [j] and its
    first 25 identity blocks. *)
Theorem letters_run_out_after_25_blocks (sd : tensor -> nat -> option Z)
  (s : resnet.t) (j : nat) (ib : Z) :
  (j < List.length (resnet.f_vals s))%nat ->
  (j < List.length (resnet.filter_sets s))%nat ->
  (j < List.length (resnet.s_vals s))%nat ->
  nth_error (resnet.i_vals s) j = Some ib ->
  25 < ib ->
  forallb (stage_ok s) (seq 0 j) = true ->
  outcome (resnet.model sd) s = Raise IndexError
  /\ built (resnet.model sd) s
     = (input_layers s ++ front s
        ++ flat_map (stage_blocks s) (seq 0 j)
        ++ ConvolutionBlock (nth j (resnet.f_vals s) 0)
             (nth j (resnet.filter_sets s) []) (Z.of_nat j + 1) "a"
             (nth j (resnet.s_vals s) 0) (resnet.normalization s)
           :: identity_blocks (nth j (resnet.f_vals s) 0)
                (nth j (resnet.filter_sets s) []) (Z.of_nat j + 1)
                (resnet.normalization s) 25)%list.
Proof.
  intros Hf H1 H2 Hib Hbig Hbefore.
  assert (H3 : (j < List.length (resnet.i_vals s))%nat).
  { apply nth_error_Some. now rewrite Hib. }
  assert (Hnth : nth j (resnet.i_vals s) 0 = ib)
    by exact (nth_error_nth _ _ 0 Hib).
  pose proof (resnet_model_yields sd s _ _
                (stage_loop_fails_at s j _ Hf Hbefore
                   (fun X => stage_body_out_of_letters s j X Hf H1 H2 H3
                               ltac:(lia)))) as Hy.
  rewrite app_nil_r in Hy.
  destruct (yields_run _ _ _ _ Hy) as [Hbuilt Hout].
  split; [exact Hout | exact Hbuilt].
Qed.

Lemma letters_run_out_after_25_blocks_witness :
  nth_error (resnet.i_vals a_late_deep_resnet) 2 = Some 40
  /\ outcome (resnet.model unknown_dim) a_late_deep_resnet = Raise IndexError
  /\ List.length
       (filter is_identity_block
          (built (resnet.model unknown_dim) a_late_deep_resnet))
     = 27%nat.
Proof.
  split; [reflexivity|].
  destruct (letters_run_out_after_25_blocks unknown_dim a_late_deep_resnet
              2 40) as [Hout Hbuilt];
    [simpl; lia | simpl; lia | simpl; lia | reflexivity | lia | reflexivity|].
  split; [exact Hout|]. rewrite Hbuilt. reflexivity.
Defined.

(** ** Counting and naming the blocks *)

Lemma filter_identity_blocks (p : layer -> bool) (f : Z) (filters : list Z)
  (stage : Z) (norm : bool) (count : nat) :
  (forall block, p (IdentityBlock f filters stage block norm) = true) ->
  filter p (identity_blocks f filters stage norm count)
  = identity_blocks f filters stage norm count.
Proof.
  intros Hp. unfold identity_blocks.
  induction (seq 0 count) as [|j l IH]; cbn [map filter]; [reflexivity|].
  now rewrite Hp, IH.
Qed.

Lemma filter_out_identity_blocks (p : layer -> bool) (f : Z)
  (filters : list Z) (stage : Z) (norm : bool) (count : nat) :
  (forall block, p (IdentityBlock f filters stage block norm) = false) ->
  filter p (identity_blocks f filters stage norm count) = [].
Proof.
  intros Hp. unfold identity_blocks.
  induction (seq 0 count) as [|j l IH]; cbn [map filter]; [reflexivity|].
  now rewrite Hp, IH.
Qed.

Lemma length_identity_blocks (f : Z) (filters : list Z) (stage : Z)
  (norm : bool) (count : nat) :
  List.length (identity_blocks f filters stage norm count) = count.
Proof. unfold identity_blocks. now rewrite length_map, length_seq. Qed.

Lemma length_filter_flat_map {A B : Type} (p : B -> bool) (f : A -> list B)
  (l : list A) :
  List.length (filter p (flat_map f l))
  = list_sum (map (fun a => List.length (filter p (f a))) l).
Proof.
  induction l as [|a l IH]; cbn [flat_map map list_sum]; [reflexivity|].
  now rewrite filter_app, length_app, IH.
Qed.

Lemma list_sum_ones {A : Type} (l : list A) :
  list_sum (map (fun _ => 1%nat) l) = List.length l.
Proof.
  unfold list_sum.
  induction l as [|a l IH]; cbn [map fold_right List.length];
    [reflexivity | now rewrite IH].
Qed.

Lemma list_sum_succ {A : Type} (g : A -> nat) (l : list A) :
  list_sum (map (fun a => Datatypes.S (g a)) l)
  = (List.length l + list_sum (map g l))%nat.
Proof.
  unfold list_sum.
  induction l as [|a l IH]; cbn [map fold_right List.length];
    [reflexivity | rewrite IH; lia].
Qed.

(** X7.  The depth of the stack.  The model of a well-formed instance
    has one convolution block per kernel size, as many identity blocks
    as the first [len(f_vals)] entries of [i_vals] ask for (a negative
    entry counting for none), and nine more layers, ten with the flip. *)
Theorem block_counts (sd : tensor -> nat -> option Z) (s : resnet.t) :
  well_formed s ->
  exists m,
    outcome (resnet.model sd) s = Ok m
    /\ List.length (filter is_convolution_block (layers_of m))
       = List.length (resnet.f_vals s)
    /\ List.length (filter is_identity_block (layers_of m))
       = list_sum (map (identity_count s)
                     (seq 0 (List.length (resnet.f_vals s))))
    /\ List.length (layers_of m)
       = ((if resnet.augmentation s then 10 else 9)
          + List.length (resnet.f_vals s)
          + list_sum (map (identity_count s)
                        (seq 0 (List.length (resnet.f_vals s)))))%nat.
Proof.
  intros Hwf.
  destruct (yields_run _ _ _ _ (resnet_model_ok sd s Hwf)) as [_ Hout].
  eexists. split; [exact Hout|].
  unfold layers_of, resnet_result. cbn [arch applied].
  assert (Hconv : forall i,
            List.length (filter is_convolution_block (stage_blocks s i))
            = 1%nat).
  { intros i. unfold stage_blocks. cbn [filter is_convolution_block].
    now rewrite filter_out_identity_blocks. }
  assert (Hid : forall i,
            List.length (filter is_identity_block (stage_blocks s i))
            = identity_count s i).
  { intros i. unfold stage_blocks. cbn [filter is_identity_block].
    rewrite filter_identity_blocks by reflexivity.
    apply length_identity_blocks. }
  assert (Hlen : forall i,
            List.length (stage_blocks s i)
            = Datatypes.S (identity_count s i)).
  { intros i. unfold stage_blocks. cbn [List.length].
    now rewrite length_identity_blocks. }
  split; [|split].
  - rewrite !filter_app, !length_app. unfold stage_stack.
    rewrite length_filter_flat_map.
    rewrite (map_ext _ (fun _ => 1%nat) Hconv), list_sum_ones, length_seq.
    unfold front, rescaling, stem, head.
    destruct (resnet.augmentation s); cbn; lia.
  - rewrite !filter_app, !length_app. unfold stage_stack.
    rewrite length_filter_flat_map.
    rewrite (map_ext _ (identity_count s) Hid).
    unfold front, rescaling, stem, head.
    destruct (resnet.augmentation s); cbn; lia.
  - rewrite !length_app. unfold stage_stack.
    rewrite length_flat_map.
    rewrite (map_ext _ (fun i => Datatypes.S (identity_count s i)) Hlen).
    rewrite list_sum_succ, length_seq.
    unfold front, rescaling, stem, head.
    destruct (resnet.augmentation s); cbn; lia.
Qed.

Lemma block_counts_witness :
  well_formed a_resnet
  /\ exists m,
       outcome (resnet.model unknown_dim) a_resnet = Ok m
       /\ List.length (filter is_convolution_block (layers_of m)) = 4%nat
       /\ List.length (filter is_identity_block (layers_of m)) = 12%nat
       /\ List.length (layers_of m) = 26%nat.
Proof.
  split; [reflexivity|].
  destruct (block_counts unknown_dim a_resnet) as (m & H1 & H2 & H3 & H4);
    [reflexivity|].
  exists m. split; [exact H1|]. split; [exact H2|].
  split; [exact H3 | exact H4].
Defined.

Lemma letters_distinct : NoDup (map letter (seq 0 26)).
Proof.
  cbv [seq map letter ascii_lowercase String.get].
  repeat (constructor;
          [ let H := fresh in
            intros H; cbn [In] in H;
            repeat (destruct H as [H|H]; [discriminate H|]); exact H
          | ]).
  constructor.
Qed.

Lemma first_letters_distinct (k : nat) :
  (k <= 26)%nat -> NoDup (map letter (seq 0 k)).
Proof.
  intros Hk. pose proof letters_distinct as H.
  replace 26%nat with (k + (26 - k))%nat in H by lia.
  rewrite seq_app, map_app in H. now apply NoDup_app_remove_r in H.
Qed.

Lemma block_keys_app (l1 l2 : list layer) :
  block_keys (l1 ++ l2) = (block_keys l1 ++ block_keys l2)%list.
Proof. apply flat_map_app. Qed.

Lemma block_keys_flat_map {A : Type} (f : A -> list layer) (l : list A) :
  block_keys (flat_map f l) = flat_map (fun a => block_keys (f a)) l.
Proof.
  induction l as [|a l IH]; cbn [flat_map]; [reflexivity|].
  now rewrite block_keys_app, IH.
Qed.

(** The keys of stage index [i]: its number with the first letters. *)
Lemma block_keys_of_stage (s : resnet.t) (i : nat) :
  block_keys (stage_blocks s i)
  = map (fun k => (Z.of_nat i + 1, letter k))
        (seq 0 (Datatypes.S (identity_count s i))).
Proof.
  unfold stage_blocks, identity_blocks, identity_count.
  cbn [block_keys flat_map block_key app seq map].
  change (letter 0) with "a". f_equal.
  rewrite <- seq_shift, map_map.
  induction (seq 0 (Z.to_nat (nth i (resnet.i_vals s) 0))) as [|j l IH];
    cbn [map flat_map block_key app]; [reflexivity|].
  now rewrite IH.
Qed.

Lemma stage_keys_distinct (s : resnet.t) (l : list nat) :
  NoDup l ->
  (forall i, In i l -> (identity_count s i <= 25)%nat) ->
  NoDup (flat_map (fun i => block_keys (stage_blocks s i)) l).
Proof.
  induction 1 as [|i l Hi Hl IH]; intros Hc; cbn [flat_map]; [constructor|].
  apply NoDup_app.
  - rewrite block_keys_of_stage.
    apply (NoDup_map_inv snd). rewrite map_map. cbn [snd].
    apply first_letters_distinct.
    specialize (Hc i (or_introl eq_refl)). lia.
  - apply IH. intros j Hj. apply Hc. now right.
  - intros [st b] H1 H2. rewrite block_keys_of_stage in H1.
    apply in_map_iff in H1. destruct H1 as (k & [= <- _] & _).
    apply in_flat_map in H2. destruct H2 as (j & Hj & H2).
    rewrite block_keys_of_stage in H2.
    apply in_map_iff in H2. destruct H2 as (k' & [= E _] & _).
    apply Hi. now replace i with j by lia.
Qed.

(** X4.  No two blocks share a name.  In the model of a well-formed
    instance the pairs of stage number and block letter of the
    convolution and identity blocks are pairwise distinct, and the stage
    numbers run from 1 to [len(f_vals)]: the first block is in stage 1. *)
Theorem block_keys_are_distinct (sd : tensor -> nat -> option Z)
  (s : resnet.t) :
  well_formed s ->
  exists m,
    outcome (resnet.model sd) s = Ok m
    /\ NoDup (block_keys (layers_of m))
    /\ Forall (fun key => 1 <= fst key <= len (resnet.f_vals s))
         (block_keys (layers_of m))
    /\ (resnet.f_vals s <> [] ->
        hd_error (block_keys (layers_of m)) = Some (1, "a")).
Proof.
  intros Hwf.
  destruct (yields_run _ _ _ _ (resnet_model_ok sd s Hwf)) as [_ Hout].
  eexists. split; [exact Hout|].
  assert (Hkeys : block_keys
                    (layers_of
                       (resnet_result sd s
                          (Tensor (input_layers s)
                             (front s ++ stage_stack s))))
                  = flat_map (fun i => block_keys (stage_blocks s i))
                      (seq 0 (List.length (resnet.f_vals s)))).
  { unfold layers_of, resnet_result. cbn [arch applied].
    rewrite !block_keys_app. unfold stage_stack.
    rewrite block_keys_flat_map.
    replace (block_keys (front s)) with (@nil (Z * string))
      by (unfold front, rescaling, stem;
          now destruct (resnet.augmentation s)).
    cbn [app]. unfold head. cbn [block_keys flat_map block_key app].
    now rewrite app_nil_r. }
  rewrite Hkeys. split; [|split].
  - apply stage_keys_distinct; [apply seq_NoDup|].
    intros i Hi. apply in_seq in Hi.
    destruct (proj1 (well_formed_spec s) Hwf i ltac:(lia))
      as (_ & _ & _ & H25).
    unfold identity_count. lia.
  - apply Forall_forall. intros [st b] H.
    apply in_flat_map in H. destruct H as (i & Hi & H).
    rewrite block_keys_of_stage in H. apply in_map_iff in H.
    destruct H as (k & [= <- _] & _). apply in_seq in Hi.
    unfold len. cbn [fst]. lia.
  - intros Hne. destruct (resnet.f_vals s) as [|f fv]; [congruence|].
    cbn [List.length seq flat_map]. rewrite block_keys_of_stage.
    reflexivity.
Qed.

Lemma block_keys_are_distinct_witness :
  well_formed a_resnet
  /\ exists m,
       outcome (resnet.model unknown_dim) a_resnet = Ok m
       /\ NoDup (block_keys (layers_of m))
       /\ hd_error (block_keys (layers_of m)) = Some (1, "a").
Proof.
  split; [reflexivity|].
  destruct (block_keys_are_distinct unknown_dim a_resnet)
    as (m & H1 & H2 & _ & H4); [reflexivity|].
  exists m. split; [exact H1|]. split; [exact H2|].
  apply H4. discriminate.
Defined.

(** [str] writes different integers differently. *)
Lemma str_inj (a b : Z) : str a = str b -> a = b.
Proof.
  unfold str. intros H. apply DecimalZ.to_int_inj.
  assert (Hn : forall z, Z.to_int z <> Decimal.Pos Decimal.Nil
                         /\ Z.to_int z <> Decimal.Neg Decimal.Nil).
  { intros [|p|p]; cbn; split; try discriminate;
      intros [= E]; now apply (Unsigned.to_uint_nonnil p). }
  apply (f_equal NilZero.int_of_string) in H.
  rewrite !NilZero.isi in H by apply Hn. now injection H.
Qed.

Lemma names_of_app (l1 l2 : list layer) :
  names_of (l1 ++ l2) = (names_of l1 ++ names_of l2)%list.
Proof. apply flat_map_app. Qed.

Lemma names_of_inputs (s : resnet.t) :
  names_of (input_layers s)
  = map (fun i => "input" ++ str i) (range (resnet.channels s)).
Proof.
  unfold input_layers.
  induction (range (resnet.channels s)) as [|i l IH];
    cbn [map names_of flat_map name_of app]; [reflexivity|].
  f_equal. exact IH.
Qed.

Lemma input_names_distinct (c : Z) :
  NoDup (map (fun i => "input" ++ str i) (range c)).
Proof.
  apply NoDup_map_NoDup_ForallPairs.
  - intros a b _ _ H. cbn in H. injection H as H. now apply str_inj.
  - unfold range. apply NoDup_map_NoDup_ForallPairs; [|apply seq_NoDup].
    intros a b _ _ H. lia.
Qed.

Lemma names_of_blocks (norm : bool) (blocks : list layer) :
  Forall (is_stage_block norm) blocks -> names_of blocks = [].
Proof.
  induction 1 as [|l ls Hl _ IH]; [reflexivity|].
  cbn [names_of flat_map]. fold (names_of ls). rewrite IH.
  now destruct l.
Qed.

(** X5.  No two layers are given the same name.  In every run of
    [resnet.model()], also one that raises, the names the source gives
    (["input0"], ["input1"], ... for the inputs, ["aug_reflect"],
    ["conv1"], ["bn_conv1"], ["avg_pool"] and ["fc"] with the class
    count) are pairwise distinct. *)
Theorem layer_names_are_distinct (sd : tensor -> nat -> option Z)
  (s : resnet.t) :
  NoDup (names_of (built (resnet.model sd) s))
  /\ exists rest,
       names_of (built (resnet.model sd) s)
       = (map (fun i => ("input" ++ str i)%string)
             (range (resnet.channels s))
          ++ rest)%list
       /\ forall name, In name rest ->
            In name ["aug_reflect"; "conv1"; "bn_conv1"; "avg_pool";
                     "fc" ++ str (resnet.classes s)].
Proof.
  destruct (resnet_model_runs sd s) as (blocks & r & Hy & Hb & _).
  destruct (yields_run _ _ _ _ Hy) as [-> _].
  rewrite !names_of_app, names_of_inputs, (names_of_blocks _ _ Hb).
  cbn [app].
  set (rest := (names_of (front s)
                ++ names_of match r with
                            | Ok X => head sd s X
                            | Raise _ => []
                            end)%list).
  assert (Hrest : forall name, In name rest ->
            In name ["aug_reflect"; "conv1"; "bn_conv1"; "avg_pool";
                     "fc" ++ str (resnet.classes s)]).
  { subst rest. unfold front, rescaling, stem, head.
    destruct (resnet.augmentation s); destruct r;
      cbn [names_of flat_map name_of app In]; intuition. }
  assert (Hnodup : NoDup rest).
  { subst rest. unfold front, rescaling, stem, head.
    destruct (resnet.augmentation s); destruct r;
      cbn [names_of flat_map name_of app];
      repeat (constructor;
              [ let H := fresh in
                intros H; cbn in H;
                repeat (destruct H as [H|H]; [discriminate H|]); exact H
              | ]);
      constructor. }
  split; [|exists rest; now split].
  apply NoDup_app; [apply input_names_distinct | exact Hnodup |].
  intros name Hin Hr. apply in_map_iff in Hin.
  destruct Hin as (i & <- & _). apply Hrest in Hr. cbn in Hr.
  repeat (destruct Hr as [Hr|Hr]; [discriminate Hr|]). exact Hr.
Qed.

Lemma sorted_app (l1 l2 : list Z) :
  StronglySorted Z.le l1 -> StronglySorted Z.le l2 ->
  (forall a b, In a l1 -> In b l2 -> a <= b) ->
  StronglySorted Z.le (l1 ++ l2).
Proof.
  induction 1 as [|a l1 Hs IH Ha]; intros H2 Hle; cbn [app]; [exact H2|].
  constructor.
  - apply IH; [exact H2|]. intros x y Hx Hy. apply Hle; [now right|exact Hy].
  - apply Forall_app. split; [exact Ha|].
    apply Forall_forall. intros y Hy. apply Hle; [now left|exact Hy].
Qed.

Lemma sorted_constant (z : Z) (l : list nat) :
  StronglySorted Z.le (map (fun _ => z) l).
Proof.
  induction l as [|a l IH]; cbn [map]; constructor; [exact IH|].
  apply Forall_forall. intros y Hy. apply in_map_iff in Hy.
  destruct Hy as (_ & <- & _). lia.
Qed.

Lemma stage_numbers_sorted (s : resnet.t) (m k : nat) :
  let numbers :=
    map fst (flat_map (fun i => block_keys (stage_blocks s i)) (seq k m)) in
  StronglySorted Z.le numbers
  /\ Forall (fun z => Z.of_nat k + 1 <= z) numbers.
Proof.
  revert k. induction m as [|m IH]; intros k; cbn [seq flat_map map].
  - split; constructor.
  - destruct (IH (Datatypes.S k)) as [Hs Hge].
    rewrite map_app, block_keys_of_stage, map_map. cbn [fst]. split.
    + apply sorted_app; [apply sorted_constant | exact Hs |].
      intros a b Ha Hb. apply in_map_iff in Ha. destruct Ha as (_ & <- & _).
      rewrite Forall_forall in Hge. specialize (Hge b Hb). lia.
    + apply Forall_app. split.
      * apply Forall_forall. intros a Ha. apply in_map_iff in Ha.
        destruct Ha as (_ & <- & _). lia.
      * apply Forall_forall. intros b Hb.
        rewrite Forall_forall in Hge. specialize (Hge b Hb). lia.
Qed.

(** X14.  The blocks come stage by stage: along the layers of the model
    of a well-formed instance the stage numbers of the convolution and
    identity blocks never decrease. *)
Theorem stages_come_in_order (sd : tensor -> nat -> option Z) (s : resnet.t) :
  well_formed s ->
  exists m,
    outcome (resnet.model sd) s = Ok m
    /\ StronglySorted Z.le (map fst (block_keys (layers_of m))).
Proof.
  intros Hwf.
  destruct (yields_run _ _ _ _ (resnet_model_ok sd s Hwf)) as [_ Hout].
  eexists. split; [exact Hout|].
  unfold layers_of, resnet_result. cbn [arch applied].
  rewrite !block_keys_app. unfold stage_stack.
  rewrite block_keys_flat_map.
  replace (block_keys (front s)) with (@nil (Z * string))
    by (unfold front, rescaling, stem; now destruct (resnet.augmentation s)).
  cbn [app]. unfold head. cbn [block_keys flat_map block_key app].
  rewrite app_nil_r.
  apply (stage_numbers_sorted s (List.length (resnet.f_vals s)) 0).
Qed.

Lemma stages_come_in_order_witness :
  well_formed a_resnet
  /\ exists m,
       outcome (resnet.model unknown_dim) a_resnet = Ok m
       /\ map fst (block_keys (layers_of m))
          = [1; 1; 1; 2; 2; 2; 2; 3; 3; 3; 3; 3; 3; 4; 4; 4].
Proof.
  split; [reflexivity|].
  destruct (stages_come_in_order unknown_dim a_resnet) as (m & H1 & _);
    [reflexivity|].
  exists m. split; [exact H1|].
  destruct (yields_run _ _ _ _ (resnet_model_ok unknown_dim a_resnet eq_refl))
    as [_ Hout].
  rewrite Hout in H1. injection H1 as <-. reflexivity.
Defined.
